(** * waco: contaminant detection times and contaminated volumes

    A shallow embedding of [waco/analyzer.py] and [waco/sim.py], and what
    holds of them.

    Conventions of the embedding.
    - A pandas table is the list of its rows, in row order; the row label of
      a row is its position (the [RangeIndex] that [reset_index] leaves in
      [waco.sim.contamination] and [waco.sim.water_demand]).
    - Simulation times are integers (seconds); concentrations, demands and
      the [time] column of a detection table are numbers, taken in exact
      rational arithmetic ([Qc]); there is no NaN among the inputs.  A NaN
      that pandas produces on the way (a missing row after index alignment,
      the [None] of a group without detection) is an [option].
    - A Python exception is the [Raise] case of [Py.result]; a function that
      mutates its arguments or acts on the disk takes the state and returns
      the new one.
    - The EPANET simulator is a parameter: a function that returns its result
      tables and the new content of the disk. *)

From Stdlib Require Import ZArith QArith Qcanon String List Lia.
From stdpp Require Import base option list strings sorting gmap numbers.

Open Scope Z_scope.

(** ** Python results and list indexing *)

Module Py.

Inductive exn : Type :=
  | IndexError
  | KeyError
  | TypeError
  | ValueError
  | OSError.

Inductive result (A : Type) : Type :=
  | Ok (a : A)
  | Raise (e : exn).

Arguments Ok {A} a.
Arguments Raise {A} e.

#[global] Instance result_ret : MRet result := fun A a => Ok a.

#[global] Instance result_bind : MBind result := fun A B f m =>
  match m with
  | Ok a => f a
  | Raise e => Raise e
  end.

#[global] Instance exn_eq_dec : EqDecision exn.
Proof. solve_decision. Defined.

(** [for x in l: ys.append(f(x))] where [f] may raise. *)
Fixpoint traverse {A B : Type} (f : A -> result B) (l : list A) : result (list B) :=
  match l with
  | [] => Ok []
  | x :: l' =>
      match f x with
      | Ok y =>
          match traverse f l' with
          | Ok ys => Ok (y :: ys)
          | Raise e => Raise e
          end
      | Raise e => Raise e
      end
  end.

(** [l[-k]] for [k >= 1]: the [k]-th element from the end, [IndexError] when
    the list has fewer than [k] elements. *)
Definition getitem_neg {A : Type} (l : list A) (k : nat) : result A :=
  match reverse l !! Nat.pred k with
  | Some x => Ok x
  | None => Raise IndexError
  end.

End Py.

Import Py.

(** ** Numbers *)

Definition Qc_of_Z (z : Z) : Qc := Q2Qc (inject_Z z).

(** [float -> int] as numpy casts it: truncation towards zero. *)
Definition astype_int (q : Qc) : Z := Z.quot (Qnum q) (Zpos (Qden q)).

(** The literal [0.01]. *)
Definition one_percent : Qc := Q2Qc (1 # 100).

(** Python's order on [str] is the code-point order, [String.leb]. *)
Definition str_le (a b : string) : Prop := String.leb a b = true.

#[global] Instance str_le_dec : RelDecision str_le.
Proof. intros a b. unfold str_le. apply _. Defined.

(** ** Tables of [waco.analyzer] *)

(** A row of [trace]: columns [time], [node] and one concentration
    (percentage) per injection node, read by column name. *)
Record TraceRow : Type := {
  tr_time : Z;
  tr_node : string;
  tr_conc : string -> Qc
}.

(** [trace]: [columns] are the names after [time] and [node], in order. *)
Record Trace : Type := {
  columns : list string;
  rows : list TraceRow
}.

(** A row of [demand]: columns [time], [node], [demand]. *)
Record DemandRow : Type := {
  dm_time : Z;
  dm_node : string;
  dm_demand : Qc
}.

(** A row of [det_time]: columns [node], [inj_node], [time]. *)
Record DetRow : Type := {
  dt_node : string;
  dt_inj_node : string;
  dt_time : Qc
}.

(** A row of the result of [contaminated_volume]. *)
Record VolRow : Type := {
  vl_node : string;
  vl_inj_node : string;
  vl_volume : Qc
}.

(** ** [detection_time] *)

(** [sorted(trace["time"].unique())] *)
Definition sorted_unique_times (trace : Trace) : list Z :=
  merge_sort Z.le (remove_dups (tr_time <$> rows trace)).

(** Lines 33-35: the value used for pairs without detection. *)
Definition resolve_non_detection_value (trace : Trace) (non_detection_value : option Qc)
  : result Qc :=
  match non_detection_value with
  | Some v => Ok v
  | None =>
      let times := sorted_unique_times trace in
      a ← getitem_neg times 1;
      b ← getitem_neg times 1;
      c ← getitem_neg times 2;
      Ok (Qc_of_Z (a + (b - c)))
  end.

(** A column of a group: the labelled values of one injection node. *)
Definition series_of (col : string) (group : list (nat * TraceRow)) : list (nat * Qc) :=
  (fun p => (p.1, tr_conc p.2 col)) <$> group.

(** The closure [first_T_greater_than]: [trace.loc[label, "time"]] of the
    first label whose value exceeds [sensibility], [None] when there is none. *)
Definition first_T_greater_than (trace : Trace) (sensibility : Qc)
    (series : list (nat * Qc)) : result (option Z) :=
  match filter (fun p => (sensibility < p.2)%Qc) series with
  | [] => Ok None
  | p :: _ =>
      match rows trace !! p.1 with
      | Some r => Ok (Some (tr_time r))
      | None => Raise KeyError
      end
  end.

(** The rows of [trace] with their labels. *)
Definition labelled (trace : Trace) : list (nat * TraceRow) :=
  imap pair (rows trace).

(** The keys of [trace.groupby("node")], sorted as pandas sorts them. *)
Definition node_keys (trace : Trace) : list string :=
  merge_sort str_le (remove_dups (tr_node <$> rows trace)).

(** The group of a key: its rows, in row order. *)
Definition group_of (trace : Trace) (n : string) : list (nat * TraceRow) :=
  filter (fun p => tr_node p.2 = n) (labelled trace).

(** [.agg({col: first_T_greater_than for col in ...})]: one line per node,
    one cell per injection column.  With an empty dictionary pandas has no
    column result to concatenate and raises [ValueError]. *)
Definition agg_first_T (trace : Trace) (sensibility : Qc)
  : result (list (string * list (string * option Z))) :=
  match columns trace with
  | [] => Raise ValueError
  | _ :: _ =>
      traverse (fun n =>
          cells ← traverse (fun col =>
              t ← first_T_greater_than trace sensibility
                    (series_of col (group_of trace n));
              Ok (col, t))
            (columns trace);
          Ok (n, cells))
        (node_keys trace)
  end.

(** [.fillna(v).stack().reset_index()] with the columns renamed. *)
Definition fill_stack (v : Qc) (agg : list (string * list (string * option Z)))
  : list DetRow :=
  flat_map (fun line =>
      (fun cell => {| dt_node := line.1;
                      dt_inj_node := cell.1;
                      dt_time := default v (Qc_of_Z <$> cell.2) |}) <$> line.2)
    agg.

Definition detection_time (trace : Trace) (sensibility : Qc)
    (non_detection_value : option Qc) : result (list DetRow) :=
  v ← resolve_non_detection_value trace non_detection_value;
  agg ← agg_first_T trace sensibility;
  Ok (fill_stack v agg).

(** ** [contaminated_volume] *)

(** The three tables the caller passes, as objects the callee can mutate. *)
Record Store : Type := {
  st_trace : Trace;
  st_demand : list DemandRow;
  st_det_time : list DetRow
}.

(** [trace["time"].max()]; NaN ([None]) on a table without rows. *)
Definition max_time (trace : Trace) : option Z :=
  match tr_time <$> rows trace with
  | [] => None
  | t :: ts => Some (foldr Z.max t ts)
  end.

(** One cell of [det_time["time"].astype(int)]. *)
Definition cast_time (d : DetRow) : DetRow :=
  {| dt_node := dt_node d;
     dt_inj_node := dt_inj_node d;
     dt_time := Qc_of_Z (astype_int (dt_time d)) |}.

(** Lines 93-94: [trace[scenario_names].mul(0.01 * demand["demand"], axis=0)]
    with the [time] column of [trace] added.  [mul] aligns the two operands
    on the row label: row [i] of [trace] meets row [i] of [demand], and a
    label that [demand] lacks gives NaN. *)
Definition contam_rows (trace : Trace) (demand : list DemandRow)
  : list (Z * (string -> option Qc)) :=
  imap (fun i r =>
      (tr_time r,
       fun col => (fun d => (tr_conc r col * (one_percent * dm_demand d))%Qc)
                    <$> demand !! i))
    (rows trace).

(** [sum] of a group, NaN skipped. *)
Definition nansum (l : list (option Qc)) : Qc :=
  foldr (fun x acc => (default 0%Qc x + acc)%Qc) 0%Qc l.

Definition sum_at (cr : list (Z * (string -> option Qc))) (t : Z) (col : string) : Qc :=
  nansum ((fun p => p.2 col) <$> filter (fun p => p.1 = t) cr).

(** Line 95: [contam_vol.groupby(["time"]).sum().stack()], a series indexed
    by (time, scenario). *)
Definition contam_vol_series (trace : Trace) (demand : list DemandRow)
  : list ((Z * string) * Qc) :=
  let cr := contam_rows trace demand in
  flat_map (fun t => (fun col => ((t, col), sum_at cr t col)) <$> columns trace)
    (merge_sort Z.le (remove_dups (fst <$> cr))).

(** Line 98: a time above [max_sim_time] becomes [max_sim_time]; nothing is
    above NaN. *)
Definition clamp (max_sim_time : option Z) (t : Z) : Z :=
  match max_sim_time with
  | Some m => if decide (m < t) then m else t
  | None => t
  end.

(** Lines 97-98: the (time, inj_node) keys, read from the table whose [time]
    column has been cast. *)
Definition lookup_keys (max_sim_time : option Z) (det_time : list DetRow)
  : list (Z * string) :=
  (fun d => (clamp max_sim_time (astype_int (dt_time d)), dt_inj_node d)) <$> det_time.

(** [pd.MultiIndex.from_tuples]: the number of levels cannot be inferred
    from an empty list. *)
Definition MultiIndex_from_tuples {A : Type} (tuples : list A) : result (list A) :=
  match tuples with
  | [] => Raise TypeError
  | _ :: _ => Ok tuples
  end.

(** [series[key]] for one key of the index. *)
Definition series_lookup (series : list ((Z * string) * Qc)) (key : Z * string)
  : result Qc :=
  match list_find (fun e => e.1 = key) series with
  | Some (_, e) => Ok e.2
  | None => Raise KeyError
  end.

(** Line 99: [series[multi_index]], a missing key raises. *)
Definition series_getitem (series : list ((Z * string) * Qc)) (keys : list (Z * string))
  : result (list Qc) :=
  traverse (series_lookup series) keys.

Definition contaminated_volume (s : Store) : Store * result (list VolRow) :=
  let max_sim_time := max_time (st_trace s) in
  let s1 := {| st_trace := st_trace s;
               st_demand := st_demand s;
               st_det_time := cast_time <$> st_det_time s |} in
  let contam_vol := contam_vol_series (st_trace s1) (st_demand s1) in
  let idxs := lookup_keys max_sim_time (st_det_time s1) in
  (s1,
   keys ← MultiIndex_from_tuples idxs;
   vols ← series_getitem contam_vol keys;
   Ok (zip_with (fun d v => {| vl_node := dt_node d;
                               vl_inj_node := dt_inj_node d;
                               vl_volume := v |})
         (st_det_time s1) vols)).

(** ** [waco.sim] *)

(** The options of a [wntr] network that the module sets. *)
Record Options : Type := {
  duration : Z;
  hydraulic_timestep : Z;
  quality_timestep : Z;
  report_timestep : Z;
  demand_model : string;
  headloss : string;
  quality_parameter : string;
  trace_node : option string
}.

Record WaterNetworkModel : Type := {
  junction_name_list : list string;
  options : Options
}.

(** [sim_results.node[...]]: a table indexed by time with one column per
    node. *)
Definition NodeTable : Type := list (Z * list (string * Qc)).

Record SimulationResults : Type := {
  node_quality : NodeTable;
  node_demand : NodeTable
}.

(** The files on disk: those that exist, and those whose removal the
    operating system refuses. *)
Record FileSystem : Type := {
  files : gset string;
  undeletable : gset string
}.

(** What [waco.sim] acts on: the disk and the runs the simulator was asked
    for, oldest first. *)
Record World : Type := {
  fs : FileSystem;
  sim_calls : list WaterNetworkModel
}.

(** [os.remove(path)]: [FileNotFoundError] and [PermissionError] are both
    [OSError]. *)
Definition os_remove (path : string) (d : FileSystem) : result FileSystem :=
  if decide (path ∈ files d) then
    if decide (path ∈ undeletable d) then Raise OSError
    else Ok {| files := files d ∖ {[path]}; undeletable := undeletable d |}
  else Raise OSError.

Definition tmp_extensions : list string := [".inp"; ".bin"; ".hyd"; ".rpt"]%string.

(** The loop of [_clean_tmp]: [except OSError: continue] lets any other
    exception through. *)
Fixpoint remove_each (file_prefix : string) (extensions : list string) (d : FileSystem)
  : result FileSystem :=
  match extensions with
  | [] => Ok d
  | extension :: rest =>
      match os_remove (file_prefix +:+ extension) d with
      | Ok d' => remove_each file_prefix rest d'
      | Raise OSError => remove_each file_prefix rest d
      | Raise e => Raise e
      end
  end.

Definition _clean_tmp (file_prefix : string) (d : FileSystem) : result FileSystem :=
  remove_each file_prefix tmp_extensions d.

Definition _set_config (wn : WaterNetworkModel) (duration timestep : Z)
  : WaterNetworkModel :=
  {| junction_name_list := junction_name_list wn;
     options := {| duration := duration;
                   hydraulic_timestep := timestep;
                   quality_timestep := timestep;
                   report_timestep := timestep;
                   demand_model := "DDA";
                   headloss := "H-W";
                   quality_parameter := quality_parameter (options wn);
                   trace_node := trace_node (options wn) |} |}.

Definition set_quality_parameter (p : string) (wn : WaterNetworkModel)
  : WaterNetworkModel :=
  {| junction_name_list := junction_name_list wn;
     options := {| duration := duration (options wn);
                   hydraulic_timestep := hydraulic_timestep (options wn);
                   quality_timestep := quality_timestep (options wn);
                   report_timestep := report_timestep (options wn);
                   demand_model := demand_model (options wn);
                   headloss := headloss (options wn);
                   quality_parameter := p;
                   trace_node := trace_node (options wn) |} |}.

Definition set_trace_node (node : string) (wn : WaterNetworkModel)
  : WaterNetworkModel :=
  {| junction_name_list := junction_name_list wn;
     options := {| duration := duration (options wn);
                   hydraulic_timestep := hydraulic_timestep (options wn);
                   quality_timestep := quality_timestep (options wn);
                   report_timestep := report_timestep (options wn);
                   demand_model := demand_model (options wn);
                   headloss := headloss (options wn);
                   quality_parameter := quality_parameter (options wn);
                   trace_node := Some node |} |}.

(** [table.stack()]: a series indexed by (time, node). *)
Definition stack (t : NodeTable) : list ((Z * string) * Qc) :=
  flat_map (fun line => (fun cell => ((line.1, cell.1), cell.2)) <$> line.2) t.

(** The table [pd.DataFrame(trace).T.reset_index()] before its columns are
    renamed: how many columns it has, its (time, node) keys and, per key, one
    cell per run (NaN where a run lacks the key). *)
Record SimFrame : Type := {
  sf_columns : list string;
  sf_index : list (Z * string);
  sf_values : list (list (option Qc))
}.

Definition series_get (s : list ((Z * string) * Qc)) (key : Z * string) : option Qc :=
  snd <$> (snd <$> list_find (fun e => e.1 = key) s).

(** The keys of the runs, first occurrence first (the runs of one network
    share their keys). *)
Definition union_index (runs : list (list ((Z * string) * Qc))) : list (Z * string) :=
  foldl (fun acc s => acc ++ filter (fun k => k ∉ acc) (remove_dups (fst <$> s)))
    [] runs.

(** Without any run the frame is empty and [reset_index] adds the single
    column [index]; otherwise the two index levels and one column per run. *)
Definition frame_width (runs : list (list ((Z * string) * Qc))) : nat :=
  match runs with
  | [] => 1
  | _ :: _ => 2 + length runs
  end.

(** [frame.columns = names]: the lengths must agree. *)
Definition set_columns (names : list string) (runs : list (list ((Z * string) * Qc)))
  : result SimFrame :=
  if decide (length names = frame_width runs) then
    Ok {| sf_columns := names;
          sf_index := union_index runs;
          sf_values := (fun k => (fun s => series_get s k) <$> runs) <$> union_index runs |}
  else Raise ValueError.

Section Simulator.

(** The EPANET simulator, a black box: from the network as it is configured
    when [run_sim] is called and the keyword arguments, the result tables and
    what it leaves on disk. *)
Variable run_sim :
  WaterNetworkModel -> gmap string string -> FileSystem -> SimulationResults * FileSystem.

(** One call of [sim.run_sim] with the keyword arguments, recorded. *)
Definition call_sim (wn : WaterNetworkModel) (kwargs : gmap string string) (w : World)
  : SimulationResults * World :=
  let r := run_sim wn kwargs (fs w) in
  (r.1, {| fs := r.2; sim_calls := sim_calls w ++ [wn] |}).

(** Lines 52-58: the loop over the injection nodes. *)
Fixpoint injection_loop (wn : WaterNetworkModel) (kwargs : gmap string string)
    (inj_nodes : list string) (trace : list (list ((Z * string) * Qc))) (w : World)
  : list (list ((Z * string) * Qc)) * World :=
  match inj_nodes with
  | [] => (trace, w)
  | node :: rest =>
      let wn' := set_trace_node node wn in
      let r := call_sim wn' kwargs w in
      let curr_trace := stack (node_quality r.1) in
      injection_loop wn' kwargs rest (trace ++ [curr_trace]) r.2
  end.

Definition get_file_prefix (kwargs : gmap string string) : string :=
  default "temp"%string (kwargs !! "file_prefix"%string).

Definition effective_inj_nodes (wn : WaterNetworkModel) (inj_nodes : option (list string))
  : list string :=
  match inj_nodes with
  | None => junction_name_list wn
  | Some l => l
  end.

Definition contamination (wn : WaterNetworkModel) (inj_nodes : option (list string))
    (duration timestep : Z) (kwargs : gmap string string) (w : World)
  : result SimFrame * World :=
  let wn1 := set_quality_parameter "TRACE" (_set_config wn duration timestep) in
  let nodes := effective_inj_nodes wn1 inj_nodes in
  let lw := injection_loop wn1 kwargs nodes [] w in
  match set_columns (["time"; "node"]%string ++ nodes) lw.1 with
  | Raise e => (Raise e, lw.2)
  | Ok frame =>
      match _clean_tmp (get_file_prefix kwargs) (fs lw.2) with
      | Raise e => (Raise e, lw.2)
      | Ok d => (Ok frame, {| fs := d; sim_calls := sim_calls lw.2 |})
      end
  end.

Definition water_demand (wn : WaterNetworkModel) (duration timestep : Z)
    (kwargs : gmap string string) (w : World) : result (list DemandRow) * World :=
  let wn1 := _set_config wn duration timestep in
  let r := call_sim wn1 kwargs w in
  match _clean_tmp (get_file_prefix kwargs) (fs r.2) with
  | Raise e => (Raise e, r.2)
  | Ok d =>
      (Ok ((fun e => {| dm_time := e.1.1; dm_node := e.1.2; dm_demand := e.2 |})
             <$> stack (node_demand r.1)),
       {| fs := d; sim_calls := sim_calls r.2 |})
  end.

End Simulator.

(** * Notions used in the statements *)

(** ** Detection *)

(** Row [r] belongs to node [n] and its concentration in column [col] is
    above [s]. *)
Definition exceeds (s : Qc) (n col : string) (r : TraceRow) : Prop :=
  tr_node r = n /\ (s < tr_conc r col)%Qc.

#[global] Instance exceeds_dec s n col r : Decision (exceeds s n col r).
Proof. unfold exceeds. apply _. Defined.

(** The time of the first row of [trace], in row order, that [exceeds]. *)
Definition first_detection (trace : Trace) (s : Qc) (n col : string) : option Z :=
  (fun ir : nat * TraceRow => tr_time ir.2) <$> list_find (exceeds s n col) (rows trace).

(** The row of the result for the pair ([n], [col]), [v] standing for the
    pairs without detection, and the whole result. *)
Definition det_row (trace : Trace) (s v : Qc) (n col : string) : DetRow :=
  {| dt_node := n;
     dt_inj_node := col;
     dt_time := default v (Qc_of_Z <$> first_detection trace s n col) |}.

Definition det_table (trace : Trace) (s v : Qc) : list DetRow :=
  flat_map (fun n => det_row trace s v n <$> columns trace) (node_keys trace).

Definition det_key (d : DetRow) : string * string := (dt_node d, dt_inj_node d).

(** Two rows of [trace] differ in time. *)
Definition two_times (trace : Trace) : Prop :=
  exists r1 r2, r1 ∈ rows trace /\ r2 ∈ rows trace /\ tr_time r1 <> tr_time r2.

(** The value for pairs without detection is given or can be computed. *)
Definition sentinel_available (trace : Trace) (ndv : option Qc) : Prop :=
  is_Some ndv \/ two_times trace.

(** ** Volumes *)

Definition sum_Qc (l : list Qc) : Qc := foldr Qcplus 0%Qc l.

(** The contaminated volume of scenario [col] that all the nodes consume at
    timestep [t]: over the row positions that both tables have and whose
    [trace] row is of time [t], the sum of the percentage times [0.01] times
    the demand at that position. *)
Definition volume_at (trace : Trace) (demand : list DemandRow) (t : Z) (col : string) : Qc :=
  sum_Qc ((fun rd : TraceRow * DemandRow =>
             (tr_conc rd.1 col * (one_percent * dm_demand rd.2))%Qc)
            <$> filter (fun rd : TraceRow * DemandRow => tr_time rd.1 = t)
                  (zip (rows trace) demand)).



(** The row of the result for a row of [det_time]. *)
Definition vol_row (trace : Trace) (demand : list DemandRow) (d : DetRow) : VolRow :=
  {| vl_node := dt_node d;
     vl_inj_node := dt_inj_node d;
     vl_volume := volume_at trace demand
                    (clamp (max_time trace) (astype_int (dt_time d))) (dt_inj_node d) |}.







(** ** Simulation *)

(** The files [_clean_tmp] goes through. *)
Definition tmp_files (file_prefix : string) (extensions : list string) : gset string :=
  list_to_set ((fun extension => file_prefix +:+ extension) <$> extensions).

(** None of the four files of the prefix is left, unless it cannot be
    removed. *)
Definition cleaned (file_prefix : string) (d : FileSystem) : Prop :=
  forall extension, extension ∈ tmp_extensions ->
    file_prefix +:+ extension ∈ files d -> file_prefix +:+ extension ∈ undeletable d.

(** The stacked quality tables of the successive runs, one per injection
    node, and the disk after the last run. *)
Fixpoint run_results
    (run_sim : WaterNetworkModel -> gmap string string -> FileSystem
               -> SimulationResults * FileSystem)
    (wn : WaterNetworkModel) (kwargs : gmap string string)
    (inj_nodes : list string) (d : FileSystem)
  : list (list ((Z * string) * Qc)) * FileSystem :=
  match inj_nodes with
  | [] => ([], d)
  | node :: rest =>
      let r := run_sim (set_trace_node node wn) kwargs d in
      let rr := run_results run_sim wn kwargs rest r.2 in
      (stack (node_quality r.1) :: rr.1, rr.2)
  end.

(** * Example tables *)

(** Two nodes, two timesteps, two injection scenarios.  Injected at [A], the
    contaminant is at [A] from the start and reaches [B] at 3600; injected at
    [B], it never reaches [A]. *)
Definition ex_conc (t : Z) (n col : string) : Qc :=
  if String.eqb col "A" then
    if String.eqb n "A" then Qc_of_Z 100
    else if Z.eqb t 0 then 0%Qc else Qc_of_Z 50
  else if String.eqb col "B" then
    if String.eqb n "B" then Qc_of_Z 100 else 0%Qc
  else 0%Qc.

Definition ex_row (t : Z) (n : string) : TraceRow :=
  {| tr_time := t; tr_node := n; tr_conc := ex_conc t n |}.

Definition ex_trace : Trace :=
  {| columns := ["A"; "B"]%string;
     rows := [ex_row 0 "A"; ex_row 0 "B"; ex_row 3600 "A"; ex_row 3600 "B"] |}.

Definition ex_dm (t : Z) (n : string) (q : Z) : DemandRow :=
  {| dm_time := t; dm_node := n; dm_demand := Qc_of_Z q |}.

Definition ex_demand : list DemandRow :=
  [ex_dm 0 "A" 2; ex_dm 0 "B" 3; ex_dm 3600 "A" 5; ex_dm 3600 "B" 7].


Definition ex_dt (n col : string) (t : Z) : DetRow :=
  {| dt_node := n; dt_inj_node := col; dt_time := Qc_of_Z t |}.

(** What [detection_time] gives on [ex_trace] with its defaults. *)
Definition ex_det_time : list DetRow :=
  [ex_dt "A" "A" 0; ex_dt "A" "B" 7200; ex_dt "B" "A" 3600; ex_dt "B" "B" 0].

Definition ex_store : Store :=
  {| st_trace := ex_trace; st_demand := ex_demand; st_det_time := ex_det_time |}.

(** A simulator for the examples: it reports one timestep for the nodes [A]
    and [B] and leaves its four files on disk. *)
Definition ex_run_sim (wn : WaterNetworkModel) (kwargs : gmap string string)
    (d : FileSystem) : SimulationResults * FileSystem :=
  ({| node_quality :=
        [(0, [("A"%string,
                if decide (trace_node (options wn) = Some "A"%string)
                then Qc_of_Z 100 else 0%Qc);
              ("B"%string,
                if decide (trace_node (options wn) = Some "B"%string)
                then Qc_of_Z 100 else 0%Qc)])];
      node_demand := [(0, [("A"%string, Qc_of_Z 2); ("B"%string, Qc_of_Z 3)])] |},
   {| files := files d ∪ tmp_files (get_file_prefix kwargs) tmp_extensions;
      undeletable := undeletable d |}).

Definition ex_wn : WaterNetworkModel :=
  {| junction_name_list := ["A"; "B"]%string;
     options := {| duration := 0; hydraulic_timestep := 0; quality_timestep := 0;
                   report_timestep := 0; demand_model := "PDA"; headloss := "D-W";
                   quality_parameter := "NONE"; trace_node := None |} |}.

Definition ex_world : World :=
  {| fs := {| files := {["network.inp"%string]}; undeletable := ∅ |}; sim_calls := [] |}.

(** * Further notions *)

(** The rows of [trace] are in nondecreasing time order, as in the table
    [waco.sim.contamination] builds. *)
Definition time_ordered (trace : Trace) : Prop :=
  forall i j r r', (i <= j)%nat ->
    rows trace !! i = Some r -> rows trace !! j = Some r' -> tr_time r <= tr_time r'.

(** The key that line 99 looks up for a row of [det_time] is in the index
    of the per-timestep volumes. *)
Definition key_present (trace : Trace) (d : DetRow) : Prop :=
  dt_inj_node d ∈ columns trace /\
  clamp (max_time trace) (astype_int (dt_time d)) ∈ (tr_time <$> rows trace).

#[global] Instance key_present_dec trace d : Decision (key_present trace d).
Proof. unfold key_present. apply _. Defined.

(** The outcome of [contaminated_volume], by cases on [det_time]. *)
Definition volume_outcome (trace : Trace) (demand : list DemandRow) (det : list DetRow)
  : result (list VolRow) :=
  if decide (det = []) then Raise TypeError
  else if decide (Forall (key_present trace) det)
       then Ok (vol_row trace demand <$> det)
       else Raise KeyError.



(** * Properties *)

(** ** Detection times *)

Lemma traverse_pure {A B : Type} (f : A -> result B) (g : A -> B) (l : list A) :
  (forall x, x ∈ l -> f x = Ok (g x)) -> traverse f l = Ok (g <$> l).
Proof.
  induction l as [|x l IH]; simpl; intros H; [done|].
  rewrite H by left. rewrite IH; [done|]. intros y Hy. apply H. by right.
Qed.

Lemma head_filter_group (s : Qc) (n col : string) (l : list TraceRow) (k : nat) :
  head (filter (fun p : nat * Qc => (s < p.2)%Qc)
          (series_of col (filter (fun p : nat * TraceRow => tr_node p.2 = n)
                            (imap (fun i => pair (k + i)%nat) l))))
  = (fun ir : nat * TraceRow => ((k + ir.1)%nat, tr_conc ir.2 col))
      <$> list_find (exceeds s n col) l.
Proof.
  unfold series_of. revert k. induction l as [|r l IH]; intros k; [done|].
  rewrite imap_cons. cbn [list_find].
  assert (Hshift : imap ((fun i => pair (k + i)%nat) ∘ S) l
                   = imap (fun i => pair (S k + i)%nat) l).
  { apply imap_ext. intros i x _. simpl. f_equal. lia. }
  rewrite Hshift.
  rewrite filter_cons. simpl.
  destruct (decide (tr_node r = n)) as [Hn|Hn].
  - rewrite fmap_cons. rewrite filter_cons. simpl.
    destruct (decide (s < tr_conc r col)%Qc) as [Hs|Hs].
    + rewrite decide_True by done. simpl. rewrite Nat.add_0_r. done.
    + rewrite decide_False by (intros [_ ?]; done).
      etrans; [exact (IH (S k))|]. destruct (list_find _ l) as [[i x]|]; simpl; [|done].
      repeat f_equal; lia.
  - rewrite decide_False by (intros [? _]; done).
    etrans; [exact (IH (S k))|]. destruct (list_find _ l) as [[i x]|]; simpl; [|done].
    repeat f_equal; lia.
Qed.

Lemma first_T_greater_than_group (trace : Trace) (s : Qc) (n col : string) :
  first_T_greater_than trace s (series_of col (group_of trace n))
  = Ok (first_detection trace s n col).
Proof.
  unfold first_T_greater_than, first_detection, group_of, labelled.
  pose proof (head_filter_group s n col (rows trace) 0) as H.
  assert (E : imap (fun i => pair (0 + i)%nat) (rows trace) = imap pair (rows trace)).
  { apply imap_ext. done. }
  rewrite E in H. clear E.
  destruct (list_find (exceeds s n col) (rows trace)) as [[i r]|] eqn:Hf; simpl in *.
  - destruct (filter _ _) as [|p ?]; simpl in H; [done|].
    injection H as ->. simpl.
    apply list_find_Some in Hf as (Hl & _ & _). by rewrite Hl.
  - destruct (filter _ _) as [|p ?]; simpl in H; done.
Qed.

Lemma agg_first_T_eq (trace : Trace) (s : Qc) :
  columns trace <> [] ->
  agg_first_T trace s
  = Ok ((fun n => (n, (fun col => (col, first_detection trace s n col)) <$> columns trace))
          <$> node_keys trace).
Proof.
  intros Hcols. unfold agg_first_T.
  destruct (columns trace) as [|c cs] eqn:Ec; [done|]. rewrite <- Ec. clear Hcols.
  apply traverse_pure. intros n _.
  rewrite (traverse_pure _ (fun col => (col, first_detection trace s n col))); [done|].
  intros col _. by rewrite first_T_greater_than_group.
Qed.

Lemma flat_map_fmap {A B C : Type} (f : B -> list C) (g : A -> B) (l : list A) :
  flat_map f (g <$> l) = flat_map (fun x => f (g x)) l.
Proof.
  induction l as [|x l IH]; [done|].
  rewrite fmap_cons. cbn [flat_map]. by rewrite IH.
Qed.

Lemma elem_of_not_nil {A : Type} (x : A) (l : list A) : x ∈ l -> l <> [].
Proof. intros Hx ->. by apply elem_of_nil in Hx. Qed.

Lemma detection_time_eq (trace : Trace) (s : Qc) (ndv : option Qc) (v : Qc) :
  columns trace <> [] ->
  resolve_non_detection_value trace ndv = Ok v ->
  detection_time trace s ndv = Ok (det_table trace s v).
Proof.
  intros Hcols Hv. unfold detection_time. rewrite Hv, agg_first_T_eq by done. simpl.
  unfold mbind, result_bind, fill_stack, det_table. f_equal.
  rewrite flat_map_fmap. apply flat_map_ext. intros n. simpl.
  rewrite <- list_fmap_compose. done.
Qed.

Lemma elem_of_node_keys (trace : Trace) (n : string) :
  n ∈ node_keys trace <-> exists r, r ∈ rows trace /\ tr_node r = n.
Proof.
  unfold node_keys. rewrite merge_sort_Permutation, elem_of_remove_dups, list_elem_of_fmap.
  split; intros (r & H1 & H2); eauto.
Qed.

Lemma NoDup_node_keys (trace : Trace) : NoDup (node_keys trace).
Proof.
  unfold node_keys. rewrite merge_sort_Permutation. apply NoDup_remove_dups.
Qed.

Lemma elem_of_flat_map {A B : Type} (f : A -> list B) (l : list A) (y : B) :
  y ∈ flat_map f l <-> exists x, x ∈ l /\ y ∈ f x.
Proof.
  rewrite list_elem_of_In, in_flat_map.
  by setoid_rewrite list_elem_of_In.
Qed.

Lemma elem_of_det_table (trace : Trace) (s v : Qc) (d : DetRow) :
  d ∈ det_table trace s v
  <-> exists n col, n ∈ node_keys trace /\ col ∈ columns trace /\ d = det_row trace s v n col.
Proof.
  unfold det_table. rewrite elem_of_flat_map. split.
  - intros (n & Hn & Hd). apply list_elem_of_fmap in Hd as (col & -> & Hc). eauto.
  - intros (n & col & Hn & Hc & ->). exists n. split; [done|].
    apply list_elem_of_fmap. eauto.
Qed.

Lemma getitem_neg_snoc2_1 {A : Type} (ts : list A) (a b : A) :
  getitem_neg (ts ++ [a; b]) 1 = Ok b.
Proof. unfold getitem_neg. by rewrite reverse_app. Qed.

Lemma getitem_neg_snoc2_2 {A : Type} (ts : list A) (a b : A) :
  getitem_neg (ts ++ [a; b]) 2 = Ok a.
Proof. unfold getitem_neg. by rewrite reverse_app. Qed.

Lemma list_snoc2 {A : Type} (l : list A) :
  (2 <= length l)%nat -> exists ts a b, l = ts ++ [a; b].
Proof.
  intros Hl. rewrite <- (reverse_involutive l) in *.
  destruct (reverse l) as [|b [|a ts]]; rewrite ?length_reverse in Hl; simpl in Hl; try lia.
  exists (reverse ts), a, b. rewrite !reverse_cons, <- app_assoc. done.
Qed.

Lemma length_sorted_unique_times (trace : Trace) :
  length (sorted_unique_times trace) = length (remove_dups (tr_time <$> rows trace)).
Proof. unfold sorted_unique_times. by rewrite merge_sort_Permutation. Qed.

Lemma elem_of_sorted_unique_times (trace : Trace) (t : Z) :
  t ∈ sorted_unique_times trace <-> exists r, r ∈ rows trace /\ tr_time r = t.
Proof.
  unfold sorted_unique_times.
  rewrite merge_sort_Permutation, elem_of_remove_dups, list_elem_of_fmap.
  split; intros (r & H1 & H2); eauto.
Qed.

Lemma NoDup_sorted_unique_times (trace : Trace) : NoDup (sorted_unique_times trace).
Proof.
  unfold sorted_unique_times. rewrite merge_sort_Permutation. apply NoDup_remove_dups.
Qed.

Lemma NoDup_two_elems {A : Type} (l : list A) (x y : A) :
  x ∈ l -> y ∈ l -> x <> y -> (2 <= length l)%nat.
Proof.
  intros Hx Hy Hne. destruct l as [|a [|b l]]; simpl; try lia.
  - by apply elem_of_nil in Hx.
  - apply list_elem_of_singleton in Hx, Hy. congruence.
Qed.

Lemma NoDup_all_equal {A : Type} (l : list A) :
  NoDup l -> (forall x y, x ∈ l -> y ∈ l -> x = y) -> (length l <= 1)%nat.
Proof.
  intros Hnd Heq. destruct l as [|a [|b l]]; simpl; try lia.
  exfalso. apply list.NoDup_cons in Hnd as [Hnotin _]. apply Hnotin.
  rewrite (Heq a b); [left| left | right; left].
Qed.



Lemma resolve_default_ok (trace : Trace) :
  two_times trace ->
  exists ts a b, sorted_unique_times trace = ts ++ [a; b] /\
    resolve_non_detection_value trace None = Ok (Qc_of_Z (b + (b - a))).
Proof.
  intros (r1 & r2 & H1 & H2 & Hne).
  destruct (list_snoc2 (sorted_unique_times trace)) as (ts & a & b & E).
  { apply (NoDup_two_elems _ (tr_time r1) (tr_time r2)); [| |done];
      apply elem_of_sorted_unique_times; eauto. }
  exists ts, a, b. split; [done|].
  unfold resolve_non_detection_value. rewrite E.
  rewrite getitem_neg_snoc2_1, getitem_neg_snoc2_2. done.
Qed.

Lemma resolve_default_fails (trace : Trace) :
  (forall r1 r2, r1 ∈ rows trace -> r2 ∈ rows trace -> tr_time r1 = tr_time r2) ->
  resolve_non_detection_value trace None = Raise IndexError.
Proof.
  intros Heq.
  assert (Hlen : (length (sorted_unique_times trace) <= 1)%nat).
  { apply NoDup_all_equal; [apply NoDup_sorted_unique_times|].
    intros x y (r1 & H1 & <-)%elem_of_sorted_unique_times
                (r2 & H2 & <-)%elem_of_sorted_unique_times. by apply Heq. }
  unfold resolve_non_detection_value.
  destruct (sorted_unique_times trace) as [|a [|b l]]; simpl in Hlen; try lia; done.
Qed.

Lemma fmap_flat_map {A B C : Type} (f : B -> C) (g : A -> list B) (l : list A) :
  f <$> flat_map g l = flat_map (fun x => f <$> g x) l.
Proof.
  induction l as [|x l IH]; [done|].
  cbn [flat_map]. by rewrite fmap_app, IH.
Qed.

Lemma NoDup_pairs {A B : Type} (l1 : list A) (l2 : list B) :
  NoDup l1 -> NoDup l2 -> NoDup (flat_map (fun a => pair a <$> l2) l1).
Proof.
  intros H1 H2. induction l1 as [|a l1 IH]; cbn [flat_map]; [constructor|].
  apply list.NoDup_cons in H1 as [Ha H1].
  apply list.NoDup_app. split; [|split].
  - apply (NoDup_fmap_2 _). done.
  - intros [x y] Hin Hin'.
    apply list_elem_of_fmap in Hin as (y' & [= -> ->] & _).
    apply elem_of_flat_map in Hin' as (a' & Ha' & Hin').
    apply list_elem_of_fmap in Hin' as (y'' & [= -> ->] & _). done.
  - by apply IH.
Qed.

Lemma filter_key_absent {A K : Type} `{EqDecision K} (f : A -> K) (l : list A) (k : K) :
  k ∉ f <$> l -> filter (fun x => f x = k) l = [].
Proof.
  induction l as [|x l IH]; [done|]. rewrite fmap_cons, not_elem_of_cons.
  intros [Hne Hk]. rewrite filter_cons, decide_False by congruence. by apply IH.
Qed.

Lemma filter_key_unique {A K : Type} `{EqDecision K} (f : A -> K) (l : list A) (k : K) :
  NoDup (f <$> l) -> k ∈ f <$> l -> length (filter (fun x => f x = k) l) = 1%nat.
Proof.
  induction l as [|x l IH]; [by intros _ ?%elem_of_nil|].
  rewrite fmap_cons, list.NoDup_cons, elem_of_cons. intros [Hx Hnd] Hk.
  rewrite filter_cons. destruct (decide (f x = k)) as [<-|Hne].
  - by rewrite filter_key_absent.
  - destruct Hk as [->|Hk]; [done|]. by apply IH.
Qed.

Lemma det_table_keys (trace : Trace) (s v : Qc) :
  det_key <$> det_table trace s v
  = flat_map (fun n => pair n <$> columns trace) (node_keys trace).
Proof.
  unfold det_table. rewrite fmap_flat_map. apply flat_map_ext. intros n.
  rewrite <- list_fmap_compose. done.
Qed.

Lemma length_det_table (trace : Trace) (s v : Qc) :
  length (det_table trace s v)
  = (length (remove_dups (tr_node <$> rows trace)) * length (columns trace))%nat.
Proof.
  unfold det_table. rewrite (flat_map_constant_length (c := length (columns trace))).
  - unfold node_keys. by rewrite merge_sort_Permutation.
  - intros n _. by rewrite length_fmap.
Qed.

Lemma resolve_ok (trace : Trace) (ndv : option Qc) :
  sentinel_available trace ndv ->
  exists v, resolve_non_detection_value trace ndv = Ok v /\
    match ndv with
    | Some x => v = x
    | None => exists ts a b, sorted_unique_times trace = ts ++ [a; b] /\
                v = Qc_of_Z (b + (b - a))
    end.
Proof.
  intros Hs. destruct ndv as [x|].
  - exists x. done.
  - destruct Hs as [[? [=]]|H2].
    destruct (resolve_default_ok trace H2) as (ts & a & b & E & Hr).
    exists (Qc_of_Z (b + (b - a))). split; [done|]. eauto.
Qed.

Lemma first_detection_Some (trace : Trace) (s : Qc) (n col : string) (i : nat) (r : TraceRow) :
  rows trace !! i = Some r -> tr_node r = n -> (s < tr_conc r col)%Qc ->
  (forall j r', (j < i)%nat -> rows trace !! j = Some r' -> tr_node r' = n ->
     (tr_conc r' col <= s)%Qc) ->
  first_detection trace s n col = Some (tr_time r).
Proof.
  intros Hi Hn Hs Hbefore. unfold first_detection.
  assert (E : list_find (exceeds s n col) (rows trace) = Some (i, r)).
  { apply list_find_Some. repeat split; try done.
    intros j y Hj Hlt [Hy1 Hy2]. eapply Qcle_not_lt; [|exact Hy2]. eauto. }
  by rewrite E.
Qed.

Lemma first_detection_None (trace : Trace) (s : Qc) (n col : string) :
  (forall r, r ∈ rows trace -> tr_node r = n -> (tr_conc r col <= s)%Qc) ->
  first_detection trace s n col = None.
Proof.
  intros Hall. unfold first_detection.
  assert (E : list_find (exceeds s n col) (rows trace) = None).
  { apply list_find_None, list.Forall_forall. intros r Hr [H1 H2].
    eapply Qcle_not_lt; [|exact H2]. eauto. }
  by rewrite E.
Qed.

(** C1.  Detection at the first exceedance.  Let [r], at position [i], be a
    row of node [n] whose concentration in the injection column [col] is
    strictly above [sensibility], every earlier row of node [n] having a
    concentration at most [sensibility] (so a concentration equal to
    [sensibility] is not a detection).  Then [detection_time] returns a table
    in which the pair ([n], [col]) is present and carries the [time] of [r],
    and no row of that pair carries another time.  The value for pairs
    without detection has to exist: it is given, or the table has two
    distinct times. *)
Theorem detection_time_first_exceedance
    (trace : Trace) (sensibility : Qc) (non_detection_value : option Qc)
    (n col : string) (i : nat) (r : TraceRow) :
  sentinel_available trace non_detection_value ->
  col ∈ columns trace ->
  rows trace !! i = Some r -> tr_node r = n ->
  (sensibility < tr_conc r col)%Qc ->
  (forall j r', (j < i)%nat -> rows trace !! j = Some r' -> tr_node r' = n ->
     (tr_conc r' col <= sensibility)%Qc) ->
  exists res,
    detection_time trace sensibility non_detection_value = Ok res /\
    {| dt_node := n; dt_inj_node := col; dt_time := Qc_of_Z (tr_time r) |} ∈ res /\
    (forall d, d ∈ res -> dt_node d = n -> dt_inj_node d = col ->
       dt_time d = Qc_of_Z (tr_time r)).
Proof.
  intros Hs Hc Hi Hn Hgt Hbefore.
  destruct (resolve_ok _ _ Hs) as (v & Hv & _).
  exists (det_table trace sensibility v).
  split; [apply detection_time_eq; [by eapply elem_of_not_nil|done]|].
  pose proof (first_detection_Some _ _ _ _ _ _ Hi Hn Hgt Hbefore) as Hf.
  split.
  - apply elem_of_det_table. exists n, col. repeat split; [|done|].
    + apply elem_of_node_keys. exists r. split; [|done]. by eapply list_elem_of_lookup_2.
    + unfold det_row. by rewrite Hf.
  - intros d (n' & col' & _ & _ & ->)%elem_of_det_table. simpl. intros -> ->.
    by rewrite Hf.
Qed.


(** C7.  For a table with at least one injection column, the column names
    being distinct, the result of [detection_time] has exactly one row for
    every pair of a node of [trace] and an injection column of [trace],
    detected or not, and no other row: its length is the number of distinct
    nodes times the number of injection columns. *)
Theorem detection_time_one_row_per_pair
    (trace : Trace) (sensibility : Qc) (non_detection_value : option Qc) :
  sentinel_available trace non_detection_value ->
  columns trace <> [] ->
  NoDup (columns trace) ->
  exists res,
    detection_time trace sensibility non_detection_value = Ok res /\
    (forall n col,
       (exists r, r ∈ rows trace /\ tr_node r = n) -> col ∈ columns trace ->
       length (filter (fun d => det_key d = (n, col)) res) = 1%nat) /\
    (forall d, d ∈ res ->
       (exists r, r ∈ rows trace /\ tr_node r = dt_node d) /\
       dt_inj_node d ∈ columns trace) /\
    length res
    = (length (remove_dups (tr_node <$> rows trace)) * length (columns trace))%nat.
Proof.
  intros Hs Hcols Hnd.
  destruct (resolve_ok _ _ Hs) as (v & Hv & _).
  exists (det_table trace sensibility v).
  split; [by apply detection_time_eq|]. split; [|split].
  - intros n col Hn Hc. apply filter_key_unique.
    + rewrite det_table_keys. apply NoDup_pairs; [apply NoDup_node_keys|done].
    + rewrite det_table_keys. apply elem_of_flat_map. exists n. split.
      * by apply elem_of_node_keys.
      * apply list_elem_of_fmap. eauto.
  - intros d (n & col & Hn & Hc & ->)%elem_of_det_table. simpl.
    split; [by apply elem_of_node_keys|done].
  - apply length_det_table.
Qed.

(** C10.  On a table with at least one injection column and without
    [non_detection_value], [detection_time] raises [IndexError] when the rows
    of [trace] share one time (or there is no row), before any result is
    produced, and returns a table when two rows differ in time; with a
    [non_detection_value] it returns a table whatever the times. *)
Theorem detection_time_default_needs_two_times (trace : Trace) (sensibility : Qc) :
  columns trace <> [] ->
  ((forall r1 r2, r1 ∈ rows trace -> r2 ∈ rows trace -> tr_time r1 = tr_time r2) ->
   detection_time trace sensibility None = Raise IndexError) /\
  (two_times trace -> exists res, detection_time trace sensibility None = Ok res) /\
  (forall v, exists res, detection_time trace sensibility (Some v) = Ok res).
Proof.
  intros Hcols. split; [|split].
  - intros Heq. unfold detection_time. by rewrite resolve_default_fails.
  - intros H2. destruct (resolve_default_ok trace H2) as (ts & a & b & _ & Hr).
    eexists. by apply detection_time_eq.
  - intros v. eexists. by apply (detection_time_eq trace sensibility (Some v) v).
Qed.

(** ** Contaminated volumes *)

Lemma contam_rows_cons (cols : list string) (r : TraceRow) (rs : list TraceRow)
    (demand : list DemandRow) :
  contam_rows {| columns := cols; rows := r :: rs |} demand
  = (tr_time r,
     fun col => (fun d => (tr_conc r col * (one_percent * dm_demand d))%Qc) <$> head demand)
    :: contam_rows {| columns := cols; rows := rs |} (tail demand).
Proof.
  unfold contam_rows. simpl rows. rewrite imap_cons. f_equal.
  - f_equal. by destruct demand.
  - apply imap_ext. intros i x _. simpl. by rewrite lookup_tail.
Qed.

Lemma nansum_cons (x : option Qc) (l : list (option Qc)) :
  nansum (x :: l) = (default 0%Qc x + nansum l)%Qc.
Proof. done. Qed.

Lemma sum_Qc_cons (x : Qc) (l : list Qc) : sum_Qc (x :: l) = (x + sum_Qc l)%Qc.
Proof. done. Qed.

Lemma sum_at_volume_at (trace : Trace) (demand : list DemandRow) (t : Z) (col : string) :
  sum_at (contam_rows trace demand) t col = volume_at trace demand t col.
Proof.
  destruct trace as [cols rs]. unfold volume_at, sum_at. cbn [rows].
  revert demand. induction rs as [|r rs IH]; intros demand; [done|].
  rewrite contam_rows_cons, filter_cons. cbn [fst snd].
  destruct demand as [|d demand]; cbn [head tail zip_with].
  - rewrite filter_nil, fmap_nil.
    specialize (IH []). rewrite zip_with_nil_r, filter_nil, fmap_nil in IH.
    destruct (decide (tr_time r = t)).
    + rewrite fmap_cons, nansum_cons, IH. cbn. ring.
    + by rewrite IH.
  - rewrite filter_cons. cbn [fst snd].
    destruct (decide (tr_time r = t)).
    + rewrite !fmap_cons, nansum_cons, sum_Qc_cons, IH. done.
    + by rewrite IH.
Qed.

Lemma contam_rows_times (trace : Trace) (demand : list DemandRow) :
  fst <$> contam_rows trace demand = tr_time <$> rows trace.
Proof.
  unfold contam_rows. rewrite fmap_imap, <- imap_const. by apply imap_ext.
Qed.

Lemma elem_of_contam_vol_series (trace : Trace) (demand : list DemandRow)
    (e : Z * string * Qc) :
  e ∈ contam_vol_series trace demand
  <-> exists t col,
        (exists r, r ∈ rows trace /\ tr_time r = t) /\ col ∈ columns trace /\
        e = ((t, col), volume_at trace demand t col).
Proof.
  unfold contam_vol_series. rewrite elem_of_flat_map. split.
  - intros (t & Ht & He).
    rewrite merge_sort_Permutation, elem_of_remove_dups, contam_rows_times in Ht.
    apply list_elem_of_fmap in Ht as (r & -> & Hr).
    apply list_elem_of_fmap in He as (col & -> & Hc).
    exists (tr_time r), col. rewrite sum_at_volume_at. eauto.
  - intros (t & col & (r & Hr & <-) & Hc & ->). exists (tr_time r). split.
    + rewrite merge_sort_Permutation, elem_of_remove_dups, contam_rows_times.
      apply list_elem_of_fmap. eauto.
    + apply list_elem_of_fmap. exists col. by rewrite sum_at_volume_at.
Qed.

Lemma series_lookup_ok (trace : Trace) (demand : list DemandRow) (t : Z) (col : string) :
  (exists r, r ∈ rows trace /\ tr_time r = t) -> col ∈ columns trace ->
  series_lookup (contam_vol_series trace demand) (t, col)
  = Ok (volume_at trace demand t col).
Proof.
  intros Ht Hc. unfold series_lookup.
  destruct (list_find _ _) as [[i e]|] eqn:Hf.
  - apply list_find_Some in Hf as (Hi & He & _).
    apply list_elem_of_lookup_2, elem_of_contam_vol_series in Hi
      as (t' & col' & _ & _ & ->).
    simpl in He. by injection He as -> ->.
  - apply list_find_None in Hf. rewrite list.Forall_forall in Hf.
    exfalso. apply (Hf ((t, col), volume_at trace demand t col)); [|done].
    apply elem_of_contam_vol_series. eauto.
Qed.

Lemma series_lookup_missing (trace : Trace) (demand : list DemandRow) (t : Z) (col : string) :
  ~ ((exists r, r ∈ rows trace /\ tr_time r = t) /\ col ∈ columns trace) ->
  series_lookup (contam_vol_series trace demand) (t, col) = Raise KeyError.
Proof.
  intros Hno. unfold series_lookup.
  destruct (list_find _ _) as [[i e]|] eqn:Hf; [|done].
  apply list_find_Some in Hf as (Hi & He & _).
  apply list_elem_of_lookup_2, elem_of_contam_vol_series in Hi
    as (t' & col' & Ht & Hc & ->).
  simpl in He. injection He as -> ->. by destruct Hno.
Qed.

Lemma astype_int_of_Z (z : Z) : astype_int (Qc_of_Z z) = z.
Proof.
  unfold astype_int, Qc_of_Z, Q2Qc. cbn [this].
  rewrite Qred_identity; [apply Z.quot_1_r|]. apply Z.gcd_1_r.
Qed.




Lemma zip_with_fmap_same {A B C : Type} (f : A -> B -> C) (g : A -> B) (l : list A) :
  zip_with f l (g <$> l) = (fun x => f x (g x)) <$> l.
Proof. induction l as [|x l IH]; [done|]. cbn. by rewrite <- IH. Qed.

Lemma lookup_keys_cast (mx : option Z) (det : list DetRow) :
  lookup_keys mx (cast_time <$> det)
  = (fun d => (clamp mx (astype_int (dt_time d)), dt_inj_node d)) <$> det.
Proof.
  unfold lookup_keys. rewrite <- list_fmap_compose. apply list_fmap_ext.
  intros i d _. simpl. by rewrite astype_int_of_Z.
Qed.

Lemma MultiIndex_from_tuples_ok {A : Type} (l : list A) :
  l <> [] -> MultiIndex_from_tuples l = Ok l.
Proof. by destruct l. Qed.


Lemma this_Qc_of_Z (z : Z) : this (Qc_of_Z z) = inject_Z z.
Proof.
  unfold Qc_of_Z, Q2Qc. cbn [this]. apply Qred_identity. apply Z.gcd_1_r.
Qed.




Example ex_detection_time :
  detection_time ex_trace 1%Qc None = Ok ex_det_time.
Proof. vm_compute. reflexivity. Qed.

Example ex_contaminated_volume :
  (fun v => (vl_node v, vl_inj_node v, this (vl_volume v)))
    <$> default [] (match (contaminated_volume ex_store).2 with
                    | Ok res => Some res
                    | Raise _ => None
                    end)
  = [("A", "A", 2 # 1); ("A", "B", 7 # 1); ("B", "A", 17 # 2); ("B", "B", 3 # 1)]%string.
Proof. vm_compute. reflexivity. Qed.











(** ** Simulation driver *)

Lemma os_remove_raises (path : string) (d : FileSystem) (e : exn) :
  os_remove path d = Raise e -> e = OSError.
Proof. unfold os_remove. repeat case_decide; congruence. Qed.

Lemma remove_each_ok (file_prefix : string) (extensions : list string) (d : FileSystem) :
  exists d',
    remove_each file_prefix extensions d = Ok d' /\
    undeletable d' = undeletable d /\
    files d' = files d ∖ (tmp_files file_prefix extensions ∖ undeletable d).
Proof.
  revert d. induction extensions as [|extension rest IH]; intros d.
  - exists d. split; [done|]. split; [done|]. unfold tmp_files. set_solver.
  - cbn [remove_each]. unfold os_remove.
    destruct (decide (file_prefix +:+ extension ∈ files d)) as [Hin|Hin];
      [destruct (decide (file_prefix +:+ extension ∈ undeletable d)) as [Hu|Hu]|].
    + destruct (IH d) as (d' & -> & Hu' & Hf'). exists d'.
      split; [done|]. split; [done|]. rewrite Hf'. unfold tmp_files.
      rewrite fmap_cons, list_to_set_cons. set_solver.
    + destruct (IH {| files := files d ∖ {[file_prefix +:+ extension]};
                      undeletable := undeletable d |}) as (d' & -> & Hu' & Hf').
      exists d'. split; [done|]. split; [done|]. rewrite Hf'. cbn [files undeletable].
      unfold tmp_files. rewrite fmap_cons, list_to_set_cons. set_solver.
    + destruct (IH d) as (d' & -> & Hu' & Hf'). exists d'.
      split; [done|]. split; [done|]. rewrite Hf'. unfold tmp_files.
      rewrite fmap_cons, list_to_set_cons. set_solver.
Qed.

Lemma clean_tmp_ok (file_prefix : string) (d : FileSystem) :
  exists d',
    _clean_tmp file_prefix d = Ok d' /\
    undeletable d' = undeletable d /\
    files d' = files d ∖ (tmp_files file_prefix tmp_extensions ∖ undeletable d) /\
    cleaned file_prefix d'.
Proof.
  destruct (remove_each_ok file_prefix tmp_extensions d) as (d' & H & Hu & Hf).
  exists d'. repeat split; try done.
  intros extension Hext. rewrite Hf, Hu. unfold tmp_files.
  assert (file_prefix +:+ extension
          ∈ (list_to_set ((fun e => file_prefix +:+ e) <$> tmp_extensions) : gset string)).
  { apply elem_of_list_to_set, list_elem_of_fmap. eauto. }
  set_solver.
Qed.

Section SimulatorProperties.

Variable run_sim :
  WaterNetworkModel -> gmap string string -> FileSystem -> SimulationResults * FileSystem.

Lemma set_trace_node_twice (a b : string) (wn : WaterNetworkModel) :
  set_trace_node a (set_trace_node b wn) = set_trace_node a wn.
Proof. done. Qed.

Lemma run_results_trace_node (wn : WaterNetworkModel) (b : string)
    (kwargs : gmap string string) (inj_nodes : list string) (d : FileSystem) :
  run_results run_sim (set_trace_node b wn) kwargs inj_nodes d
  = run_results run_sim wn kwargs inj_nodes d.
Proof.
  revert d. induction inj_nodes as [|node rest IH]; intros d; [done|].
  cbn [run_results]. rewrite set_trace_node_twice. by rewrite IH.
Qed.

Lemma injection_loop_spec (wn : WaterNetworkModel) (kwargs : gmap string string)
    (inj_nodes : list string) (trace : list (list ((Z * string) * Qc))) (w : World) :
  injection_loop run_sim wn kwargs inj_nodes trace w
  = (trace ++ (run_results run_sim wn kwargs inj_nodes (fs w)).1,
     {| fs := (run_results run_sim wn kwargs inj_nodes (fs w)).2;
        sim_calls := sim_calls w ++ ((fun node => set_trace_node node wn) <$> inj_nodes) |}).
Proof.
  revert wn trace w. induction inj_nodes as [|node rest IH]; intros wn trace w.
  - cbn. rewrite !app_nil_r. by destruct w.
  - cbn [injection_loop run_results]. rewrite IH. unfold call_sim. cbn [fst snd fs sim_calls].
    rewrite run_results_trace_node. rewrite <- !app_assoc. cbn [app fmap list_fmap].
    done.
Qed.

Lemma length_run_results (wn : WaterNetworkModel) (kwargs : gmap string string)
    (inj_nodes : list string) (d : FileSystem) :
  length (run_results run_sim wn kwargs inj_nodes d).1 = length inj_nodes.
Proof.
  revert d. induction inj_nodes as [|node rest IH]; intros d; [done|].
  cbn. by rewrite IH.
Qed.

Lemma set_columns_ok (nodes : list string) (runs : list (list ((Z * string) * Qc))) :
  nodes <> [] -> length runs = length nodes ->
  set_columns (["time"; "node"]%string ++ nodes) runs
  = Ok {| sf_columns := ["time"; "node"]%string ++ nodes;
          sf_index := union_index runs;
          sf_values := (fun k => (fun s => series_get s k) <$> runs) <$> union_index runs |}.
Proof.
  intros Hne Hlen. unfold set_columns, frame_width.
  destruct runs as [|r runs]; [by destruct nodes|].
  rewrite decide_True; [done|]. rewrite length_app, <- Hlen. done.
Qed.

Lemma set_columns_no_run (names : list string) :
  length names <> 1%nat -> set_columns names [] = Raise ValueError.
Proof. intros H. unfold set_columns, frame_width. by rewrite decide_False. Qed.



End SimulatorProperties.

(** ** Detection followed by the volume computation *)





(** ** The model on the example tables *)

Example astype_int_truncates :
  astype_int (Q2Qc (7201 # 2)) = 3600 /\ astype_int (Q2Qc (-1 # 2)) = 0.
Proof. split; reflexivity. Qed.

Example cast_time_fraction :
  this (dt_time (cast_time {| dt_node := "A"; dt_inj_node := "B";
                              dt_time := Q2Qc (7201 # 2) |})) = 3600 # 1.
Proof. reflexivity. Qed.

Example contamination_without_injection_node :
  contamination ex_run_sim ex_wn (Some []) 3600 3600 ∅ ex_world
  = (Raise ValueError, ex_world).
Proof. reflexivity. Qed.

Example contamination_leaves_other_files :
  files (fs (contamination ex_run_sim ex_wn None 3600 3600 ∅ ex_world).2)
  = {["network.inp"%string]}.
Proof. vm_compute. reflexivity. Qed.

Example water_demand_table :
  (fun d => (dm_time d, dm_node d, this (dm_demand d)))
    <$> default [] (match (water_demand ex_run_sim ex_wn 3600 3600 ∅ ex_world).1 with
                    | Ok t => Some t
                    | Raise _ => None
                    end)
  = [(0, "A"%string, 2 # 1); (0, "B"%string, 3 # 1)].
Proof. vm_compute. reflexivity. Qed.

Example clean_tmp_keeps_undeletable :
  (fun d => (files d, undeletable d))
    <$> (match _clean_tmp "temp"
                 {| files := {["temp.inp"; "temp.bin"; "temp.rpt"]}%string;
                    undeletable := {["temp.inp"%string]} |} with
         | Ok d => Some d
         | Raise _ => None
         end)
  = Some ({["temp.inp"%string]}, {["temp.inp"%string]}).
Proof. vm_compute. reflexivity. Qed.

(** ** The statements at the example tables *)

Lemma ex_sentinel_available : sentinel_available ex_trace None.
Proof.
  right. exists (ex_row 0 "A"), (ex_row 3600 "A").
  split; [left|]. split; [right; right; left|]. discriminate.
Defined.

Lemma detection_time_first_exceedance_witness :
  exists res,
    detection_time ex_trace 1%Qc None = Ok res /\
    {| dt_node := "B"; dt_inj_node := "A"; dt_time := Qc_of_Z 3600 |} ∈ res /\
    (forall d, d ∈ res -> dt_node d = "B"%string -> dt_inj_node d = "A"%string ->
       dt_time d = Qc_of_Z 3600).
Proof.
  apply (detection_time_first_exceedance ex_trace 1%Qc None "B" "A" 3 (ex_row 3600 "B")).
  - exact ex_sentinel_available.
  - left.
  - reflexivity.
  - reflexivity.
  - vm_compute. reflexivity.
  - intros j r' Hj Hr Hn.
    destruct j as [|[|[|j]]]; [| | |lia]; injection Hr as <-;
      first [discriminate Hn | vm_compute; discriminate].
Defined.


Lemma detection_time_one_row_per_pair_witness :
  exists res,
    detection_time ex_trace 1%Qc None = Ok res /\
    (forall n col,
       (exists r, r ∈ rows ex_trace /\ tr_node r = n) -> col ∈ columns ex_trace ->
       length (filter (fun d => det_key d = (n, col)) res) = 1%nat) /\
    (forall d, d ∈ res ->
       (exists r, r ∈ rows ex_trace /\ tr_node r = dt_node d) /\
       dt_inj_node d ∈ columns ex_trace) /\
    length res
    = (length (remove_dups (tr_node <$> rows ex_trace)) * length (columns ex_trace))%nat.
Proof.
  apply (detection_time_one_row_per_pair ex_trace 1%Qc None).
  - exact ex_sentinel_available.
  - discriminate.
  - apply NoDup_cons_2; [|apply NoDup_singleton].
    intros H%list_elem_of_singleton. discriminate H.
Defined.

Lemma detection_time_default_needs_two_times_witness :
  detection_time {| columns := ["A"%string]; rows := [ex_row 0 "A"; ex_row 0 "B"] |}
    1%Qc None = Raise IndexError /\
  (exists res, detection_time ex_trace 1%Qc None = Ok res).
Proof.
  split.
  - apply (proj1 (detection_time_default_needs_two_times
                    {| columns := ["A"%string]; rows := [ex_row 0 "A"; ex_row 0 "B"] |}
                    1%Qc ltac:(discriminate))).
    intros r1 r2 H1 H2. cbn [rows] in H1, H2. rewrite !elem_of_cons in H1, H2.
    destruct H1 as [->|[->|H1]]; [| |by apply elem_of_nil in H1];
      (destruct H2 as [->|[->|H2]]; [| |by apply elem_of_nil in H2]); reflexivity.
  - apply (proj1 (proj2 (detection_time_default_needs_two_times ex_trace 1%Qc
                           ltac:(discriminate)))).
    destruct ex_sentinel_available as [[x Hx]|H]; [discriminate Hx|exact H].
Defined.








(** * Further properties *)

(** ** Detection times *)


Lemma first_detection_spec (trace : Trace) (s : Qc) (n col : string) (t : Z) :
  first_detection trace s n col = Some t ->
  exists i r, rows trace !! i = Some r /\ tr_node r = n /\ (s < tr_conc r col)%Qc /\
    tr_time r = t /\
    forall j r', (j < i)%nat -> rows trace !! j = Some r' -> tr_node r' = n ->
      (tr_conc r' col <= s)%Qc.
Proof.
  unfold first_detection.
  destruct (list_find _ _) as [[i r]|] eqn:Hf; [|done]. intros [= <-].
  apply list_find_Some in Hf as (Hi & [Hn Hs] & Hbefore).
  exists i, r. repeat split; try done.
  intros j r' Hj Hr' Hn'. apply Qcnot_lt_le. intros Hlt.
  by apply (Hbefore j r' Hr' Hj).
Qed.

Lemma first_detection_None_inv (trace : Trace) (s : Qc) (n col : string) :
  first_detection trace s n col = None ->
  forall r, r ∈ rows trace -> tr_node r = n -> (tr_conc r col <= s)%Qc.
Proof.
  unfold first_detection.
  destruct (list_find _ _) as [[i r]|] eqn:Hf; [done|]. intros _ r Hr Hn.
  apply list_find_None in Hf. rewrite list.Forall_forall in Hf.
  apply Qcnot_lt_le. intros Hlt. by apply (Hf r Hr).
Qed.


Lemma Qc_of_Z_le (x y : Z) : x <= y <-> (Qc_of_Z x <= Qc_of_Z y)%Qc.
Proof.
  unfold Qcle. rewrite !this_Qc_of_Z. by rewrite <- Zle_Qle.
Qed.

(** X2.  On a table whose rows are in nondecreasing time order, the time
    [detection_time] reports for a detected pair is that of a row of the
    node above [sensibility], and no row of the node above [sensibility] has
    an earlier time: it is the earliest exceedance in time, not only the
    first in row order. *)
Theorem detection_time_is_earliest_when_time_ordered
    (trace : Trace) (sensibility : Qc) (non_detection_value : option Qc) :
  time_ordered trace ->
  sentinel_available trace non_detection_value ->
  columns trace <> [] ->
  exists res,
    detection_time trace sensibility non_detection_value = Ok res /\
    forall d r, d ∈ res -> r ∈ rows trace -> tr_node r = dt_node d ->
      (sensibility < tr_conc r (dt_inj_node d))%Qc ->
      exists r0,
        r0 ∈ rows trace /\ tr_node r0 = dt_node d /\
        (sensibility < tr_conc r0 (dt_inj_node d))%Qc /\
        dt_time d = Qc_of_Z (tr_time r0) /\ tr_time r0 <= tr_time r.
Proof.
  intros Hord Hs Hcols.
  destruct (resolve_ok _ _ Hs) as (v & Hv & _).
  exists (det_table trace sensibility v). split; [by apply detection_time_eq|].
  intros d r (n & col & _ & _ & ->)%elem_of_det_table Hr.
  cbn [det_row dt_time dt_node dt_inj_node]. intros Hn Hgt.
  destruct (first_detection trace sensibility n col) as [t|] eqn:Hf; cbn.
  - apply first_detection_spec in Hf as (i & r0 & Hi & Hn0 & Hs0 & <- & Hbefore).
    exists r0. split; [by eapply list_elem_of_lookup_2|]. repeat split; try done.
    apply list_elem_of_lookup in Hr as [j Hj].
    destruct (decide (i <= j)%nat) as [Hij|Hij]; [by eapply Hord|].
    exfalso. eapply Qcle_not_lt; [|exact Hgt]. eapply (Hbefore j r); [lia|done..].
  - exfalso. eapply Qcle_not_lt; [|exact Hgt].
    by eapply first_detection_None_inv.
Qed.

(** X3.  A less sensitive sensor does not detect earlier.  On a table in
    nondecreasing time order, for [s <= s'], a pair detected with threshold
    [s'] is reported with threshold [s] at a time that is not later. *)
Theorem detection_time_monotone_in_sensibility
    (trace : Trace) (s s' : Qc) (non_detection_value : option Qc) :
  time_ordered trace ->
  sentinel_available trace non_detection_value ->
  columns trace <> [] ->
  (s <= s')%Qc ->
  exists res res',
    detection_time trace s non_detection_value = Ok res /\
    detection_time trace s' non_detection_value = Ok res' /\
    forall d d', d ∈ res -> d' ∈ res' -> det_key d = det_key d' ->
      (exists r, r ∈ rows trace /\ tr_node r = dt_node d' /\
                 (s' < tr_conc r (dt_inj_node d'))%Qc) ->
      (dt_time d <= dt_time d')%Qc.
Proof.
  intros Hord Hs Hcols Hle.
  destruct (resolve_ok _ _ Hs) as (v & Hv & _).
  exists (det_table trace s v), (det_table trace s' v).
  split; [by apply detection_time_eq|]. split; [by apply detection_time_eq|].
  intros d d' (n & col & _ & _ & ->)%elem_of_det_table
              (n' & col' & _ & _ & ->)%elem_of_det_table.
  unfold det_key. cbn [det_row dt_time dt_node dt_inj_node].
  intros [= <- <-] (r & Hr & Hn & Hgt).
  destruct (first_detection trace s' n col) as [t'|] eqn:Hf'; cbn.
  2:{ exfalso. eapply Qcle_not_lt; [|exact Hgt]. by eapply first_detection_None_inv. }
  apply first_detection_spec in Hf' as (i' & r' & Hi' & Hn' & Hs' & <- & _).
  assert (Hs0 : (s < tr_conc r' col)%Qc) by (by eapply Qcle_lt_trans).
  destruct (first_detection trace s n col) as [t|] eqn:Hf; cbn.
  2:{ exfalso. eapply Qcle_not_lt; [|exact Hs0].
      eapply first_detection_None_inv; [done| |done]. by eapply list_elem_of_lookup_2. }
  apply first_detection_spec in Hf as (i & r0 & Hi & Hn0 & _ & <- & Hbefore).
  rewrite <- Qc_of_Z_le.
  destruct (decide (i <= i')%nat) as [Hii|Hii]; [by eapply Hord|].
  exfalso. eapply Qcle_not_lt; [|exact Hs0]. eapply (Hbefore i' r'); [lia|done..].
Qed.

Lemma str_le_total : Total str_le.
Proof. intros a b. unfold str_le. apply String.leb_total. Qed.

(** X4.  Order of the result.  The rows of the table [detection_time]
    returns are grouped by node, the nodes being the distinct nodes of
    [trace] in the sorted order of [groupby], and inside a node the
    injection nodes follow the column order of [trace]. *)
Theorem detection_time_rows_in_node_then_column_order
    (trace : Trace) (sensibility : Qc) (non_detection_value : option Qc) :
  sentinel_available trace non_detection_value ->
  columns trace <> [] ->
  exists res nodes,
    detection_time trace sensibility non_detection_value = Ok res /\
    det_key <$> res = flat_map (fun n => pair n <$> columns trace) nodes /\
    Sorted str_le nodes /\ NoDup nodes /\
    (forall n, n ∈ nodes <-> exists r, r ∈ rows trace /\ tr_node r = n).
Proof.
  intros Hs Hcols.
  destruct (resolve_ok _ _ Hs) as (v & Hv & _).
  exists (det_table trace sensibility v), (node_keys trace).
  split; [by apply detection_time_eq|]. split; [apply det_table_keys|].
  split; [|split; [apply NoDup_node_keys|apply elem_of_node_keys]].
  unfold node_keys. apply Sorted_merge_sort, str_le_total.
Qed.

Lemma list_find_filter {A : Type} (P Q : A -> Prop)
    `{forall x, Decision (P x)} `{forall x, Decision (Q x)} (l : list A) :
  (forall x, P x -> Q x) ->
  snd <$> list_find P (filter Q l) = snd <$> list_find P l.
Proof.
  intros HPQ. induction l as [|x l IH]; [done|].
  rewrite filter_cons. cbn [list_find].
  destruct (decide (Q x)) as [HQ|HQ].
  - cbn [list_find]. destruct (decide (P x)); [done|].
    rewrite <- !option_fmap_compose.
    etrans; [|etrans; [exact IH|]]; by destruct (list_find _ _) as [[? ?]|].
  - rewrite decide_False by (intros HP; by apply HQ, HPQ).
    rewrite IH. by destruct (list_find P l) as [[? ?]|].
Qed.

Lemma first_detection_own_rows (trace trace' : Trace) (s : Qc) (n col : string) :
  filter (fun r => tr_node r = n) (rows trace')
  = filter (fun r => tr_node r = n) (rows trace) ->
  first_detection trace' s n col = first_detection trace s n col.
Proof.
  intros Hf. unfold first_detection.
  assert (E : forall l : list TraceRow,
            (fun ir : nat * TraceRow => tr_time ir.2) <$> list_find (exceeds s n col) l
            = tr_time <$> (snd <$> list_find (exceeds s n col)
                                     (filter (fun r => tr_node r = n) l))).
  { intros l. rewrite (list_find_filter (exceeds s n col) (fun r => tr_node r = n))
      by (by intros x [? _]).
    by destruct (list_find _ _) as [[? ?]|]. }
  by rewrite !E, Hf.
Qed.

(** X5.  The rows of a node in the result depend on the rows of that node
    only.  Two tables with the same injection columns and the same rows of
    node [n], in the same relative order, give the same result rows for
    [n], whatever the rows of the other nodes and their interleaving. *)
Theorem detection_time_depends_on_own_rows
    (trace trace' : Trace) (sensibility v : Qc) (n : string) :
  columns trace <> [] ->
  columns trace' = columns trace ->
  filter (fun r => tr_node r = n) (rows trace')
  = filter (fun r => tr_node r = n) (rows trace) ->
  exists res res',
    detection_time trace sensibility (Some v) = Ok res /\
    detection_time trace' sensibility (Some v) = Ok res' /\
    forall d, dt_node d = n -> d ∈ res' <-> d ∈ res.
Proof.
  intros Hcols Hc Hf.
  exists (det_table trace sensibility v), (det_table trace' sensibility v).
  split; [by apply detection_time_eq|].
  split; [apply detection_time_eq; [by rewrite Hc|done]|].
  assert (Hkeys : n ∈ node_keys trace' <-> n ∈ node_keys trace).
  { rewrite !elem_of_node_keys.
    split; intros (r & Hr & Hn);
      assert (Hin : r ∈ filter (fun r => tr_node r = n) (rows trace)
                    \/ r ∈ filter (fun r => tr_node r = n) (rows trace'))
        by (first [left; by apply list_elem_of_filter
                  | right; by apply list_elem_of_filter]);
      [rewrite Hf in Hin | rewrite <- Hf in Hin];
      destruct Hin as [Hin|Hin]; apply list_elem_of_filter in Hin as [_ Hin]; eauto. }
  intros d Hd. rewrite !elem_of_det_table. split.
  - intros (n' & col & Hn' & Hcol & ->). cbn in Hd. subst n'.
    exists n, col. rewrite <- Hc. split; [by apply Hkeys|]. split; [done|].
    unfold det_row. by rewrite (first_detection_own_rows trace trace').
  - intros (n' & col & Hn' & Hcol & ->). cbn in Hd. subst n'.
    exists n, col. rewrite Hc. split; [by apply Hkeys|]. split; [done|].
    unfold det_row. by rewrite (first_detection_own_rows trace trace').
Qed.

(** ** Outcome of the volume computation *)

Lemma traverse_raise {A B : Type} (f : A -> result B) (l : list A) (e : exn) (x : A) :
  x ∈ l -> f x = Raise e ->
  (forall y e', y ∈ l -> f y = Raise e' -> e' = e) ->
  traverse f l = Raise e.
Proof.
  induction l as [|a l IH]; [by intros ?%elem_of_nil|].
  intros Hx Hfx Hall. cbn [traverse].
  destruct (f a) as [b|e'] eqn:Hfa.
  - assert (Hxl : x ∈ l).
    { apply elem_of_cons in Hx as [->|?]; [congruence|done]. }
    rewrite IH; [done..|]. intros y e' Hy. apply Hall. by right.
  - f_equal. eapply Hall; [left|done].
Qed.

Lemma key_present_lookup (trace : Trace) (demand : list DemandRow) (d : DetRow) :
  key_present trace d ->
  series_lookup (contam_vol_series trace demand)
    (clamp (max_time trace) (astype_int (dt_time d)), dt_inj_node d)
  = Ok (vl_volume (vol_row trace demand d)).
Proof.
  intros [Hc Ht]. apply series_lookup_ok; [|done].
  apply list_elem_of_fmap in Ht as (r & Hr & Hin). eauto.
Qed.

Lemma key_absent_lookup (trace : Trace) (demand : list DemandRow) (d : DetRow) :
  ~ key_present trace d ->
  series_lookup (contam_vol_series trace demand)
    (clamp (max_time trace) (astype_int (dt_time d)), dt_inj_node d)
  = Raise KeyError.
Proof.
  intros Hn. apply series_lookup_missing. intros [(r & Hr & Ht) Hc]. apply Hn.
  split; [done|]. apply list_elem_of_fmap. eauto.
Qed.

Lemma series_lookup_raises (series : list ((Z * string) * Qc)) (key : Z * string) (e : exn) :
  series_lookup series key = Raise e -> e = KeyError.
Proof. unfold series_lookup. destruct (list_find _ _) as [[? ?]|]; congruence. Qed.

Lemma contaminated_volume_outcome (s : Store) :
  (contaminated_volume s).2
  = volume_outcome (st_trace s) (st_demand s) (st_det_time s).
Proof.
  destruct s as [trace demand det]. cbn [st_trace st_demand st_det_time].
  unfold contaminated_volume, volume_outcome. cbn [snd st_trace st_demand st_det_time].
  rewrite lookup_keys_cast.
  destruct (decide (det = [])) as [->|Hne]; [done|].
  rewrite MultiIndex_from_tuples_ok by (by destruct det).
  cbn [mbind result_bind]. unfold series_getitem.
  destruct (decide (Forall (key_present trace) det)) as [Hall|Hnot].
  - rewrite (traverse_pure _ (fun k => volume_at trace demand k.1 k.2)).
    + unfold mbind, result_bind. f_equal. rewrite zip_with_fmap_l, <- list_fmap_compose.
      rewrite zip_with_fmap_same. apply list_fmap_ext. intros i d _. done.
    + intros [t col] (d & [= -> ->] & Hd)%list_elem_of_fmap.
      rewrite list.Forall_forall in Hall. exact (key_present_lookup _ _ _ (Hall d Hd)).
  - apply not_Forall_Exists in Hnot; [|apply _].
    apply Exists_exists in Hnot as (d & Hd & Hbad).
    assert (Ht : traverse (series_lookup (contam_vol_series trace demand))
                   ((fun d => (clamp (max_time trace) (astype_int (dt_time d)),
                               dt_inj_node d)) <$> det) = Raise KeyError).
    { apply (traverse_raise _ _ KeyError
               (clamp (max_time trace) (astype_int (dt_time d)), dt_inj_node d)).
      - apply list_elem_of_fmap. exists d. split; [done|]. by apply list_elem_of_In.
      - by apply key_absent_lookup.
      - intros y e' _. apply series_lookup_raises. }
    by rewrite Ht.
Qed.



(** X8.  [contaminated_volume] raises [TypeError] exactly on a [det_time]
    without rows, where the index of line 99 is built from an empty list. *)
Theorem contaminated_volume_TypeError_iff (s : Store) :
  (contaminated_volume s).2 = Raise TypeError <-> st_det_time s = [].
Proof.
  rewrite contaminated_volume_outcome. unfold volume_outcome.
  repeat case_decide; split; done.
Qed.

Lemma cast_time_idemp (d : DetRow) : cast_time (cast_time d) = cast_time d.
Proof. unfold cast_time. cbn. by rewrite astype_int_of_Z. Qed.

(** X9.  The cast of line 88 is idempotent: calling [contaminated_volume]
    again on the tables the first call left gives the same result and
    leaves the tables as they are. *)
Theorem contaminated_volume_twice (s : Store) :
  contaminated_volume (contaminated_volume s).1 = contaminated_volume s.
Proof.
  destruct s as [trace demand det].
  unfold contaminated_volume. cbn [fst st_trace st_demand st_det_time].
  assert (E : cast_time <$> (cast_time <$> det) = cast_time <$> det).
  { rewrite <- list_fmap_compose. apply list_fmap_ext. intros i d _. apply cast_time_idemp. }
  by rewrite E.
Qed.

Lemma sum_Qc_nonneg (l : list Qc) :
  Forall (fun x => (0 <= x)%Qc) l -> (0 <= sum_Qc l)%Qc.
Proof.
  induction 1 as [|x l Hx _ IH]; [done|].
  rewrite sum_Qc_cons. by apply Qcplus_nonneg_nonneg.
Qed.

Lemma volume_at_nonneg (trace : Trace) (demand : list DemandRow) (t : Z) (col : string) :
  (forall r, r ∈ rows trace -> (0 <= tr_conc r col)%Qc) ->
  (forall d, d ∈ demand -> (0 <= dm_demand d)%Qc) ->
  (0 <= volume_at trace demand t col)%Qc.
Proof.
  intros Hc Hd. unfold volume_at. apply sum_Qc_nonneg.
  apply list.Forall_forall. intros x ([r d] & -> & Hin)%list_elem_of_fmap.
  apply list_elem_of_filter in Hin as [_ Hin]. cbn [fst snd].
  apply Qcmult_nonneg_nonneg; [by eapply Hc, elem_of_zip_l|].
  apply Qcmult_nonneg_nonneg; [done|]. by eapply Hd, elem_of_zip_r.
Qed.

(** X10.  With concentrations and demands that are not negative, no volume
    of the table [contaminated_volume] returns is negative. *)
Theorem contaminated_volume_nonnegative (s : Store) (res : list VolRow) :
  (forall r col, r ∈ rows (st_trace s) -> col ∈ columns (st_trace s) ->
     (0 <= tr_conc r col)%Qc) ->
  (forall d, d ∈ st_demand s -> (0 <= dm_demand d)%Qc) ->
  (contaminated_volume s).2 = Ok res ->
  forall v, v ∈ res -> (0 <= vl_volume v)%Qc.
Proof.
  intros Hc Hd. rewrite contaminated_volume_outcome. unfold volume_outcome.
  repeat case_decide; try done. intros [= <-] v (d & -> & Hin)%list_elem_of_fmap.
  cbn [vol_row vl_volume]. apply volume_at_nonneg; [|done].
  match goal with H : Forall _ _ |- _ => rewrite list.Forall_forall in H;
    destruct (H d Hin) as [Hcol _] end.
  intros r Hr. by apply Hc.
Qed.





Lemma zip_app_beyond {A B : Type} (l : list A) (k extra : list B) :
  (length l <= length k)%nat -> zip l (k ++ extra) = zip l k.
Proof.
  revert k. induction l as [|x l IH]; intros k Hlen; [done|].
  destruct k as [|y k]; [simpl in Hlen; lia|].
  cbn. f_equal. apply IH. simpl in Hlen. lia.
Qed.

Lemma sum_zero_demand (t : Z) (col : string) (rs : list TraceRow) (extra : list DemandRow) :
  Forall (fun d => dm_demand d = 0%Qc) extra ->
  sum_Qc ((fun rd : TraceRow * DemandRow =>
             (tr_conc rd.1 col * (one_percent * dm_demand rd.2))%Qc)
            <$> filter (fun rd : TraceRow * DemandRow => tr_time rd.1 = t)
                  (zip rs extra)) = 0%Qc.
Proof.
  revert extra. induction rs as [|r rs IH]; intros extra Hz; [done|].
  destruct extra as [|e extra]; [done|].
  apply list.Forall_cons in Hz as [He Hz].
  cbn [zip_with]. rewrite filter_cons. cbn [fst snd]. case_decide.
  - rewrite fmap_cons, sum_Qc_cons, IH by done. cbn [fst snd]. rewrite He. ring.
  - by apply IH.
Qed.

Lemma volume_at_zero_rows (trace : Trace) (demand extra : list DemandRow)
    (t : Z) (col : string) :
  Forall (fun d => dm_demand d = 0%Qc) extra ->
  volume_at trace (demand ++ extra) t col = volume_at trace demand t col.
Proof.
  intros Hz. unfold volume_at. destruct trace as [cols rs]. cbn [rows].
  revert demand. induction rs as [|r rs IH]; intros demand; [done|].
  destruct demand as [|d demand].
  - rewrite app_nil_l, sum_zero_demand by done. done.
  - cbn [app zip_with]. rewrite !filter_cons. cbn [fst snd].
    case_decide.
    + rewrite !fmap_cons, !sum_Qc_cons. f_equal. apply IH.
    + apply IH.
Qed.

Lemma volume_at_beyond (trace : Trace) (demand extra : list DemandRow)
    (t : Z) (col : string) :
  (length (rows trace) <= length demand)%nat ->
  volume_at trace (demand ++ extra) t col = volume_at trace demand t col.
Proof. intros Hlen. unfold volume_at. by rewrite zip_app_beyond. Qed.

(** X12.  Rows of [demand] whose label is beyond the rows of [trace] do not
    change the result, and a missing demand counts as a demand of zero:
    appending rows to a [demand] at least as long as [trace], or appending
    rows of zero demand to any [demand], leaves the result as it is. *)
Theorem contaminated_volume_ignores_unmatched_demand
    (trace : Trace) (demand extra : list DemandRow) (det : list DetRow) :
  (length (rows trace) <= length demand)%nat \/
  Forall (fun d => dm_demand d = 0%Qc) extra ->
  (contaminated_volume
     {| st_trace := trace; st_demand := demand ++ extra; st_det_time := det |}).2
  = (contaminated_volume
       {| st_trace := trace; st_demand := demand; st_det_time := det |}).2.
Proof.
  intros H. rewrite !contaminated_volume_outcome. cbn [st_trace st_demand st_det_time].
  unfold volume_outcome. repeat case_decide; try done.
  f_equal. apply list_fmap_ext. intros i d _. unfold vol_row. f_equal.
  destruct H; [by apply volume_at_beyond|by apply volume_at_zero_rows].
Qed.

(** X14.  An explicit [non_detection_value] can break the composition.  If
    some pair is never detected and the value, cast to an integer, is at
    most the maximal time of [trace] without being one of its times, the
    table [detection_time] returns makes [contaminated_volume] raise
    [KeyError]. *)
Theorem explicit_value_outside_the_table_breaks_volume
    (trace : Trace) (demand : list DemandRow) (sensibility v : Qc) (n col : string) :
  col ∈ columns trace ->
  (exists r, r ∈ rows trace /\ tr_node r = n) ->
  (forall r, r ∈ rows trace -> tr_node r = n -> (tr_conc r col <= sensibility)%Qc) ->
  astype_int v ∉ (tr_time <$> rows trace) ->
  (forall m, max_time trace = Some m -> astype_int v <= m) ->
  exists det,
    detection_time trace sensibility (Some v) = Ok det /\
    (contaminated_volume
       {| st_trace := trace; st_demand := demand; st_det_time := det |}).2
    = Raise KeyError.
Proof.
  intros Hc Hn Hall Hout Hmax.
  exists (det_table trace sensibility v).
  split; [apply detection_time_eq; [by eapply elem_of_not_nil|done]|].
  rewrite contaminated_volume_outcome. cbn [st_trace st_demand st_det_time].
  assert (Hin : det_row trace sensibility v n col ∈ det_table trace sensibility v).
  { apply elem_of_det_table. exists n, col. split; [by apply elem_of_node_keys|done]. }
  unfold volume_outcome.
  rewrite decide_False by (by eapply elem_of_not_nil).
  rewrite decide_False; [done|].
  intros Hk. rewrite list.Forall_forall in Hk. destruct (Hk _ Hin) as [_ Ht].
  unfold det_row in Ht. cbn [dt_time] in Ht.
  rewrite (first_detection_None _ _ _ _ Hall) in Ht. cbn in Ht.
  apply Hout. unfold clamp in Ht.
  destruct (max_time trace) as [m|] eqn:Hm; [|done].
  specialize (Hmax m eq_refl). by rewrite decide_False in Ht by lia.
Qed.

(** ** Cleaning and the simulation driver *)

Lemma FileSystem_eq (d d' : FileSystem) :
  files d = files d' -> undeletable d = undeletable d' -> d = d'.
Proof. destruct d, d'. cbn. by intros -> ->. Qed.

(** X15.  [_clean_tmp] never raises and is idempotent: a second call on the
    file system the first call left changes nothing. *)
Theorem clean_tmp_idempotent (file_prefix : string) (d : FileSystem) :
  exists d', _clean_tmp file_prefix d = Ok d' /\ _clean_tmp file_prefix d' = Ok d'.
Proof.
  destruct (clean_tmp_ok file_prefix d) as (d' & H & Hu & Hf & _).
  exists d'. split; [done|].
  destruct (clean_tmp_ok file_prefix d') as (d'' & H' & Hu' & Hf' & _).
  rewrite H'. f_equal. apply FileSystem_eq; [|done].
  rewrite Hf', Hf, Hu. set_solver.
Qed.

(** X16.  Without any of the four temporary files, [_clean_tmp] swallows
    the four [OSError]s and leaves the file system as it is. *)
Theorem clean_tmp_without_files (file_prefix : string) (d : FileSystem) :
  (forall extension, extension ∈ tmp_extensions ->
     file_prefix +:+ extension ∉ files d) ->
  _clean_tmp file_prefix d = Ok d.
Proof.
  intros Hno.
  destruct (clean_tmp_ok file_prefix d) as (d' & H & Hu & Hf & _).
  rewrite H. f_equal. apply FileSystem_eq; [|done]. rewrite Hf.
  assert (Hdisj : forall p, p ∈ tmp_files file_prefix tmp_extensions -> p ∉ files d).
  { intros p Hp. unfold tmp_files in Hp.
    apply elem_of_list_to_set, list_elem_of_fmap in Hp as (e & -> & He). by apply Hno. }
  set_solver.
Qed.

Section SimulatorExtras.

Variable run_sim :
  WaterNetworkModel -> gmap string string -> FileSystem -> SimulationResults * FileSystem.




(** X19.  Without injection nodes ([inj_nodes] empty, or a network without
    junctions) [contamination] raises [ValueError] at the renaming of the
    columns, having run no simulation and before [_clean_tmp]: the world is
    as before. *)
Theorem contamination_without_injection_nodes
    (wn : WaterNetworkModel) (inj_nodes : option (list string))
    (duration timestep : Z) (kwargs : gmap string string) (w : World) :
  effective_inj_nodes wn inj_nodes = [] ->
  contamination run_sim wn inj_nodes duration timestep kwargs w = (Raise ValueError, w).
Proof.
  intros Hnil. unfold contamination.
  set (wn1 := set_quality_parameter "TRACE" (_set_config wn duration timestep)).
  assert (Hn : effective_inj_nodes wn1 inj_nodes = effective_inj_nodes wn inj_nodes)
    by (by destruct inj_nodes).
  rewrite Hn, Hnil. by destruct w.
Qed.

End SimulatorExtras.

Section SimulatorFrame.

Variable run_sim :
  WaterNetworkModel -> gmap string string -> FileSystem -> SimulationResults * FileSystem.


End SimulatorFrame.

(** ** Content of the contamination table *)

Lemma remove_dups_NoDup {A : Type} `{EqDecision A} (l : list A) :
  NoDup l -> remove_dups l = l.
Proof.
  induction 1 as [|x l Hx _ IH]; [done|].
  cbn. destruct (decide_rel elem_of x l); [done|]. by rewrite IH.
Qed.

Lemma filter_none {A : Type} (P : A -> Prop) `{forall x, Decision (P x)} (l : list A) :
  (forall x, x ∈ l -> ~ P x) -> filter P l = [].
Proof.
  induction l as [|x l IH]; intros Hno; [done|].
  rewrite filter_cons, decide_False by (apply Hno; left).
  apply IH. intros y Hy. apply Hno. by right.
Qed.

Lemma filter_all {A : Type} (P : A -> Prop) `{forall x, Decision (P x)} (l : list A) :
  (forall x, x ∈ l -> P x) -> filter P l = l.
Proof.
  induction l as [|x l IH]; intros Hall; [done|].
  rewrite filter_cons, decide_True by (apply Hall; left).
  f_equal. apply IH. intros y Hy. apply Hall. by right.
Qed.

Lemma union_step_NoDup (acc ks : list (Z * string)) :
  NoDup acc -> NoDup (acc ++ filter (fun k => k ∉ acc) (remove_dups ks)).
Proof.
  intros Hacc. apply list.NoDup_app. split; [done|]. split.
  - intros x Hx Hx'. by apply list_elem_of_filter in Hx' as [? _].
  - apply list.NoDup_filter, NoDup_remove_dups.
Qed.

Lemma foldl_union_NoDup (runs : list (list ((Z * string) * Qc))) (acc : list (Z * string)) :
  NoDup acc ->
  NoDup (foldl (fun acc s => acc ++ filter (fun k => k ∉ acc) (remove_dups (fst <$> s)))
           acc runs).
Proof.
  revert acc. induction runs as [|s runs IH]; intros acc Hacc; [done|].
  cbn [foldl]. apply IH. by apply union_step_NoDup.
Qed.

Lemma NoDup_union_index (runs : list (list ((Z * string) * Qc))) :
  NoDup (union_index runs).
Proof. apply foldl_union_NoDup. constructor. Qed.

Lemma foldl_union_same (ks : list (Z * string)) (runs : list (list ((Z * string) * Qc))) :
  NoDup ks -> Forall (fun s => fst <$> s = ks) runs ->
  foldl (fun acc s => acc ++ filter (fun k => k ∉ acc) (remove_dups (fst <$> s)))
    ks runs = ks.
Proof.
  intros Hks. induction 1 as [|s runs Hs _ IH]; [done|].
  cbn [foldl]. rewrite Hs, remove_dups_NoDup by done.
  rewrite (filter_none (fun k => k ∉ ks)); [by rewrite app_nil_r|].
  intros x Hx Hn. done.
Qed.

Lemma union_index_same (ks : list (Z * string)) (s : list ((Z * string) * Qc))
    (runs : list (list ((Z * string) * Qc))) :
  NoDup ks -> Forall (fun s => fst <$> s = ks) (s :: runs) ->
  union_index (s :: runs) = ks.
Proof.
  intros Hks Hall. apply list.Forall_cons in Hall as [Hs Hall].
  unfold union_index. cbn [foldl]. rewrite app_nil_l, Hs, remove_dups_NoDup by done.
  rewrite (filter_all (fun k => k ∉ [])); [by apply foldl_union_same|].
  intros x _. apply not_elem_of_nil.
Qed.

Lemma series_get_is_Some (s : list ((Z * string) * Qc)) (k : Z * string) :
  k ∈ (fst <$> s) -> is_Some (series_get s k).
Proof.
  intros (e & -> & He)%list_elem_of_fmap. unfold series_get.
  destruct (list_find_elem_of (fun e' : Z * string * Qc => e'.1 = e.1) s e He eq_refl)
    as [[i x] Hf].
  rewrite Hf. by eexists.
Qed.

Section FrameContent.

Variable run_sim :
  WaterNetworkModel -> gmap string string -> FileSystem -> SimulationResults * FileSystem.

Lemma run_results_keys (ks : list (Z * string)) (wn : WaterNetworkModel)
    (kwargs : gmap string string) (inj_nodes : list string) (d : FileSystem) :
  (forall wn' d', fst <$> stack (node_quality (run_sim wn' kwargs d').1) = ks) ->
  Forall (fun s => fst <$> s = ks) (run_results run_sim wn kwargs inj_nodes d).1.
Proof.
  intros Hks. revert d. induction inj_nodes as [|node rest IH]; intros d; [constructor|].
  cbn [run_results fst]. constructor; [apply Hks|apply IH].
Qed.

(** X21.  When every run reports the same (time, node) keys, without
    duplicates, the table of [contamination] has these keys as rows, in
    that order, and every row has one cell per injection node, none of them
    missing. *)
Theorem contamination_frame_without_NaN
    (ks : list (Z * string))
    (wn : WaterNetworkModel) (inj_nodes : option (list string))
    (duration timestep : Z) (kwargs : gmap string string) (w : World) :
  effective_inj_nodes wn inj_nodes <> [] ->
  NoDup ks ->
  (forall wn' d', fst <$> stack (node_quality (run_sim wn' kwargs d').1) = ks) ->
  exists frame w',
    contamination run_sim wn inj_nodes duration timestep kwargs w = (Ok frame, w') /\
    sf_index frame = ks /\
    length (sf_values frame) = length ks /\
    Forall (fun row =>
              length row = length (effective_inj_nodes wn inj_nodes) /\
              Forall is_Some row)
      (sf_values frame).
Proof.
  intros Hne Hnd Hks. unfold contamination.
  set (wn1 := set_quality_parameter "TRACE" (_set_config wn duration timestep)).
  assert (Hn : effective_inj_nodes wn1 inj_nodes = effective_inj_nodes wn inj_nodes)
    by (by destruct inj_nodes).
  rewrite Hn. set (nodes := effective_inj_nodes wn inj_nodes) in *.
  rewrite injection_loop_spec. cbn [fst snd]. rewrite app_nil_l.
  set (rr := run_results run_sim wn1 kwargs nodes (fs w)).
  assert (Hlen : length rr.1 = length nodes) by apply length_run_results.
  assert (Hkeys : Forall (fun s => fst <$> s = ks) rr.1) by (by apply run_results_keys).
  rewrite (set_columns_ok nodes rr.1 Hne Hlen). cbn [fs sim_calls].
  destruct (clean_tmp_ok (get_file_prefix kwargs) rr.2) as (d' & -> & _).
  assert (Hidx : union_index rr.1 = ks).
  { destruct rr.1 as [|s runs] eqn:E.
    - destruct nodes; [done|discriminate Hlen].
    - by apply union_index_same. }
  eexists _, _. split; [done|]. cbn [sf_index sf_values]. rewrite Hidx.
  split; [done|]. split; [by rewrite length_fmap|].
  apply list.Forall_forall. intros row (k & -> & Hk)%list_elem_of_fmap.
  split; [by rewrite length_fmap|].
  apply list.Forall_forall. intros c (s & -> & Hs)%list_elem_of_fmap.
  apply series_get_is_Some. rewrite list.Forall_forall in Hkeys. by rewrite (Hkeys s Hs).
Qed.

End FrameContent.

(** ** The further properties at the example tables *)

Lemma ex_two_times : two_times ex_trace.
Proof.
  exists (ex_row 0 "A"), (ex_row 3600 "A").
  split; [left|]. split; [right; right; left|]. discriminate.
Defined.

Lemma ex_time_ordered : time_ordered ex_trace.
Proof.
  intros i j r r' Hij Hi Hj.
  destruct i as [|[|[|[|i]]]]; try discriminate Hi; injection Hi as <-;
    (destruct j as [|[|[|[|j]]]]; try discriminate Hj; injection Hj as <-);
    first [lia | cbn; lia].
Defined.


Lemma detection_time_is_earliest_when_time_ordered_witness :
  exists res,
    detection_time ex_trace 1%Qc None = Ok res /\
    forall d r, d ∈ res -> r ∈ rows ex_trace -> tr_node r = dt_node d ->
      (1 < tr_conc r (dt_inj_node d))%Qc ->
      exists r0,
        r0 ∈ rows ex_trace /\ tr_node r0 = dt_node d /\
        (1 < tr_conc r0 (dt_inj_node d))%Qc /\
        dt_time d = Qc_of_Z (tr_time r0) /\ tr_time r0 <= tr_time r.
Proof.
  apply (detection_time_is_earliest_when_time_ordered ex_trace 1%Qc None).
  - exact ex_time_ordered.
  - right. exact ex_two_times.
  - discriminate.
Defined.

Lemma detection_time_monotone_in_sensibility_witness :
  exists res res',
    detection_time ex_trace 1%Qc None = Ok res /\
    detection_time ex_trace (Qc_of_Z 60) None = Ok res' /\
    forall d d', d ∈ res -> d' ∈ res' -> det_key d = det_key d' ->
      (exists r, r ∈ rows ex_trace /\ tr_node r = dt_node d' /\
                 (Qc_of_Z 60 < tr_conc r (dt_inj_node d'))%Qc) ->
      (dt_time d <= dt_time d')%Qc.
Proof.
  apply (detection_time_monotone_in_sensibility ex_trace 1%Qc (Qc_of_Z 60) None).
  - exact ex_time_ordered.
  - right. exact ex_two_times.
  - discriminate.
  - vm_compute. discriminate.
Defined.

Lemma detection_time_rows_in_node_then_column_order_witness :
  exists res nodes,
    detection_time ex_trace 1%Qc None = Ok res /\
    det_key <$> res = flat_map (fun n => pair n <$> columns ex_trace) nodes /\
    Sorted str_le nodes /\ NoDup nodes /\
    (forall n, n ∈ nodes <-> exists r, r ∈ rows ex_trace /\ tr_node r = n).
Proof.
  apply (detection_time_rows_in_node_then_column_order ex_trace 1%Qc None).
  - right. exact ex_two_times.
  - discriminate.
Defined.

Lemma ex_key_present : Forall (key_present ex_trace) ex_det_time.
Proof.
  repeat apply Forall_cons; try apply Forall_nil; (split; [|vm_compute]);
    first [by left | by (right; left) | by (right; right; left)].
Defined.

Lemma ex_store_outcome :
  (contaminated_volume ex_store).2 = Ok (vol_row ex_trace ex_demand <$> ex_det_time).
Proof.
  rewrite contaminated_volume_outcome. unfold volume_outcome.
  rewrite decide_False by discriminate. by rewrite decide_True by exact ex_key_present.
Defined.



Lemma contaminated_volume_TypeError_iff_witness :
  (contaminated_volume
     {| st_trace := ex_trace; st_demand := ex_demand; st_det_time := [] |}).2
  = Raise TypeError.
Proof.
  apply (proj2 (contaminated_volume_TypeError_iff
                  {| st_trace := ex_trace; st_demand := ex_demand; st_det_time := [] |})).
  reflexivity.
Defined.

Lemma contaminated_volume_nonnegative_witness :
  Forall (fun v => (0 <= vl_volume v)%Qc) (vol_row ex_trace ex_demand <$> ex_det_time).
Proof.
  apply list.Forall_forall.
  apply (contaminated_volume_nonnegative ex_store).
  - intros r col Hr _. cbn [st_trace ex_store ex_trace rows] in Hr.
    rewrite !elem_of_cons in Hr.
    destruct Hr as [->|[->|[->|[->|Hr]]]]; [| | | |by apply elem_of_nil in Hr];
      unfold ex_row, ex_conc; cbn [tr_conc];
      repeat (destruct (String.eqb _ _)); try (destruct (Z.eqb _ _));
      vm_compute; discriminate.
  - intros d Hd. unfold ex_store in Hd. cbn [st_demand] in Hd. unfold ex_demand in Hd.
    rewrite !elem_of_cons in Hd.
    destruct Hd as [->|[->|[->|[->|Hd]]]]; [| | | |by apply elem_of_nil in Hd];
      vm_compute; discriminate.
  - exact ex_store_outcome.
Defined.

Lemma contaminated_volume_ignores_unmatched_demand_witness :
  (contaminated_volume
     {| st_trace := ex_trace; st_demand := ex_demand ++ [ex_dm 7200 "A" 9];
        st_det_time := ex_det_time |}).2
  = (contaminated_volume
       {| st_trace := ex_trace; st_demand := ex_demand; st_det_time := ex_det_time |}).2.
Proof.
  apply (contaminated_volume_ignores_unmatched_demand
           ex_trace ex_demand [ex_dm 7200 "A" 9] ex_det_time).
  left. cbn. lia.
Defined.


Lemma explicit_value_outside_the_table_breaks_volume_witness :
  exists det,
    detection_time ex_trace 1%Qc (Some (Qc_of_Z (-1))) = Ok det /\
    (contaminated_volume
       {| st_trace := ex_trace; st_demand := ex_demand; st_det_time := det |}).2
    = Raise KeyError.
Proof.
  apply (explicit_value_outside_the_table_breaks_volume
           ex_trace ex_demand 1%Qc (Qc_of_Z (-1)) "A" "B").
  - right; left.
  - exists (ex_row 0 "A"). split; [left|reflexivity].
  - intros r Hr Hn. cbn [rows ex_trace] in Hr. rewrite !elem_of_cons in Hr.
    destruct Hr as [->|[->|[->|[->|Hr]]]];
      first [discriminate Hn | vm_compute; discriminate | by apply elem_of_nil in Hr].
  - intros (r & Hr & Hin)%list_elem_of_fmap.
    cbn [rows ex_trace] in Hin. rewrite !elem_of_cons in Hin.
    destruct Hin as [->|[->|[->|[->|Hin]]]];
      try (vm_compute in Hr; discriminate Hr). by apply elem_of_nil in Hin.
  - intros m [= <-]. vm_compute. discriminate.
Defined.

Lemma clean_tmp_without_files_witness :
  _clean_tmp "temp" (fs ex_world) = Ok (fs ex_world).
Proof.
  apply (clean_tmp_without_files "temp" (fs ex_world)).
  intros extension He. unfold tmp_extensions in He. rewrite !elem_of_cons in He.
  cbn [fs ex_world files]. rewrite elem_of_singleton.
  destruct He as [->|[->|[->|[->|He]]]];
    first [discriminate | by apply elem_of_nil in He].
Defined.

Lemma contamination_without_injection_nodes_witness :
  contamination ex_run_sim ex_wn (Some []) 3600 3600 ∅ ex_world
  = (Raise ValueError, ex_world).
Proof.
  apply (contamination_without_injection_nodes ex_run_sim ex_wn (Some []) 3600 3600 ∅
           ex_world).
  reflexivity.
Defined.

Lemma contamination_frame_without_NaN_witness :
  exists frame w',
    contamination ex_run_sim ex_wn None 3600 3600 ∅ ex_world = (Ok frame, w') /\
    sf_index frame = [(0, "A"%string); (0, "B"%string)] /\
    length (sf_values frame) = length [(0, "A"%string); (0, "B"%string)] /\
    Forall (fun row =>
              length row = length (effective_inj_nodes ex_wn None) /\
              Forall is_Some row)
      (sf_values frame).
Proof.
  apply (contamination_frame_without_NaN ex_run_sim
           [(0, "A"%string); (0, "B"%string)] ex_wn None 3600 3600 ∅ ex_world).
  - discriminate.
  - apply NoDup_cons_2; [|apply NoDup_singleton].
    intros H%list_elem_of_singleton. discriminate H.
  - intros wn' d'. reflexivity.
Defined.

Lemma detection_time_depends_on_own_rows_witness :
  exists res res',
    detection_time ex_trace 1%Qc (Some (Qc_of_Z 7200)) = Ok res /\
    detection_time
      {| columns := columns ex_trace;
         rows := [ex_row 0 "A"; ex_row 3600 "A"; ex_row 0 "B"; ex_row 3600 "B"] |}
      1%Qc (Some (Qc_of_Z 7200)) = Ok res' /\
    forall d, dt_node d = "B"%string -> d ∈ res' <-> d ∈ res.
Proof.
  apply (detection_time_depends_on_own_rows ex_trace
           {| columns := columns ex_trace;
              rows := [ex_row 0 "A"; ex_row 3600 "A"; ex_row 0 "B"; ex_row 3600 "B"] |}
           1%Qc (Qc_of_Z 7200) "B").
  - discriminate.
  - reflexivity.
  - reflexivity.
Defined.


